(** * prepare_network: the scenario modifiers of the network preparer

    A shallow embedding of [scripts/prepare_network.py].  The network is a
    record of tables, every table a finite map from the component name (the
    index of the pandas frame) to a row record.  Numbers are exact rationals
    ([Q]): the rounding of the 64-bit floats the script computes with is not
    modelled; a cell that the script computes is a [fnum], which has the
    infinities and [nan] next to the finite numbers.  Python exceptions are values of [exn], and code that
    can raise lives in the [result] monad. *)

From Stdlib Require Import QArith Qminmax Qabs ZArith String Ascii List Lia Lqa Bool.
From stdpp Require Import gmap strings list fin_maps.

Local Open Scope string_scope.
Local Open Scope Q_scope.

(** ** Exceptions *)

Inductive exn : Type :=
| KeyError (key : string)
| IndexError
| ValueError (text : string)
| AssertionError (name : string).

Inductive result (A : Type) : Type :=
| Ok (a : A)
| Raise (e : exn).
Arguments Ok {A} a.
Arguments Raise {A} e.

#[global] Instance result_ret : MRet result := fun A a => Ok a.
#[global] Instance result_bind : MBind result := fun A B k m =>
  match m with
  | Ok a => k a
  | Raise e => Raise e
  end.
#[global] Instance result_fmap : FMap result := fun A B f m =>
  match m with
  | Ok a => Ok (f a)
  | Raise e => Raise e
  end.

Definition succeeds {A} (m : result A) : Prop := ∃ a, m = Ok a.

(** ** Python strings *)

Module PyStr.

(** [sub in s] *)
Fixpoint contains (sub s : string) : bool :=
  String.prefix sub s ||
  match s with
  | EmptyString => false
  | String _ s' => contains sub s'
  end.

(** [s.startswith(p)] and [s.startswith(tuple(ps))] *)
Definition startswith (s p : string) : bool := String.prefix p s.
Definition startswith_any (s : string) (ps : list string) : bool :=
  existsb (startswith s) ps.

(** [s.split(sep)] for a one-character separator; the result is never
    empty. *)
Fixpoint split (sep : ascii) (s : string) : list string :=
  match s with
  | EmptyString => [EmptyString]
  | String c s' =>
      if Ascii.eqb c sep then EmptyString :: split sep s'
      else match split sep s' with
           | [] => [String c EmptyString]
           | w :: ws => String c w :: ws
           end
  end.

(** [s.split(sep, 2)[0]]: the text before the first separator. *)
Definition first_segment (sep : ascii) (s : string) : string :=
  hd EmptyString (split sep s).

(** [l[i]] on a list, raising [IndexError] out of range. *)
Definition item {A} (l : list A) (i : nat) : result A :=
  match nth_error l i with
  | Some a => Ok a
  | None => Raise IndexError
  end.

Definition is_digit (c : ascii) : bool :=
  let n := nat_of_ascii c in (48 <=? n)%nat && (n <=? 57)%nat.

Definition digit_val (c : ascii) : Z := Z.of_nat (nat_of_ascii c) - 48.

End PyStr.

(** ** Regular expressions

    The two patterns of the script are sequences of quantified character
    classes and anchors, so a pattern is a list of items and the matcher is
    the backtracking matcher of [re]: every quantifier is greedy and gives
    characters back one at a time when the rest of the pattern fails. *)

Module Re.

Inductive cclass : Type :=
| Digit                  (* [0-9], and \d on ASCII text *)
| Lit (c : ascii)        (* a literal character *)
| LitNoCase (c : ascii). (* a literal letter under re.IGNORECASE *)

Inductive quant : Type := One | Optional | Star | Plus.

Inductive item : Type :=
| Rep (q : quant) (c : cclass)
| Bol   (* ^ *)
| Eol.  (* $ *)

Definition regex : Type := list item.

Definition lower (c : ascii) : ascii :=
  let n := nat_of_ascii c in
  if (65 <=? n)%nat && (n <=? 90)%nat then ascii_of_nat (n + 32) else c.

Definition in_class (k : cclass) (c : ascii) : bool :=
  match k with
  | Digit => PyStr.is_digit c
  | Lit d => Ascii.eqb c d
  | LitNoCase d => Ascii.eqb (lower c) (lower d)
  end.

(** [$] matches at the end of the text and just before a newline that
    ends the text. *)
Definition at_eol (s : string) : bool :=
  match s with
  | EmptyString => true
  | String c EmptyString => Ascii.eqb c "010"
  | _ => false
  end.

(** The greedy star over one class, with the rest of the pattern as the
    continuation [k]; [bos] says whether the position is the start of the
    text.  The result is the number of characters matched. *)
Fixpoint match_star (c : cclass) (k : bool → string → option nat)
         (bos : bool) (s : string) : option nat :=
  match s with
  | String a s' =>
      if in_class c a then
        match match_star c k false s' with
        | Some n => Some (S n)
        | None => k bos s
        end
      else k bos s
  | EmptyString => k bos s
  end.

Fixpoint match_here (r : regex) (bos : bool) (s : string) : option nat :=
  match r with
  | [] => Some O
  | Bol :: r' => if bos then match_here r' bos s else None
  | Eol :: r' => if at_eol s then match_here r' bos s else None
  | Rep One c :: r' =>
      match s with
      | String a s' =>
          if in_class c a then S <$> match_here r' false s' else None
      | EmptyString => None
      end
  | Rep Optional c :: r' =>
      match s with
      | String a s' =>
          if in_class c a then
            match match_here r' false s' with
            | Some n => Some (S n)
            | None => match_here r' bos s
            end
          else match_here r' bos s
      | EmptyString => match_here r' bos s
      end
  | Rep Star c :: r' => match_star c (match_here r') bos s
  | Rep Plus c :: r' =>
      match s with
      | String a s' =>
          if in_class c a then S <$> match_star c (match_here r') false s'
          else None
      | EmptyString => None
      end
  end.

(** [re.match(r, s)]: group 0 of a match at the start of the text. *)
Definition match_ (r : regex) (s : string) : option string :=
  n ← match_here r true s; Some (String.substring 0 n s).

(** The scan of [re.findall(r, s)] up to its first match: [Some m] when
    the list is not empty, with [m] its element 0. *)
Fixpoint scan (r : regex) (bos : bool) (s : string) : option string :=
  match match_here r bos s with
  | Some n => Some (String.substring 0 n s)
  | None =>
      match s with
      | EmptyString => None
      | String _ s' => scan r false s'
      end
  end.

Definition findall_head (r : regex) (s : string) : option string :=
  scan r true s.

(** What a pattern matches, without the order in which the matcher tries:
    [Matches r bos s k] when [r] matches the first [k] characters of
    [s]. *)
Inductive Matches : regex → bool → string → nat → Prop :=
| M_nil bos s : Matches [] bos s 0
| M_bol r s k : Matches r true s k → Matches (Bol :: r) true s k
| M_eol r bos s k :
    at_eol s = true → Matches r bos s k → Matches (Eol :: r) bos s k
| M_one c r bos a s k :
    in_class c a = true → Matches r false s k →
    Matches (Rep One c :: r) bos (String a s) (S k)
| M_opt_take c r bos a s k :
    in_class c a = true → Matches r false s k →
    Matches (Rep Optional c :: r) bos (String a s) (S k)
| M_opt_skip c r bos s k :
    Matches r bos s k → Matches (Rep Optional c :: r) bos s k
| M_star_take c r bos a s k :
    in_class c a = true → Matches (Rep Star c :: r) false s k →
    Matches (Rep Star c :: r) bos (String a s) (S k)
| M_star_skip c r bos s k :
    Matches r bos s k → Matches (Rep Star c :: r) bos s k
| M_plus c r bos a s k :
    in_class c a = true → Matches (Rep Star c :: r) false s k →
    Matches (Rep Plus c :: r) bos (String a s) (S k).

Fixpoint all_in (c : cclass) (s : string) : bool :=
  match s with
  | EmptyString => true
  | String a s' => in_class c a && all_in c s'
  end.

End Re.

(** A decimal number as [float_regex] reads it: digits, or digits (maybe
    none), a point and at least one digit. *)
Definition decimal (m : string) : Prop :=
  ∃ ip fp : string,
    Re.all_in Re.Digit ip = true ∧ Re.all_in Re.Digit fp = true ∧ fp ≠ "" ∧
    (m = ip ++ fp ∨ m = ip ++ "." ++ fp).

(** The end of a token for [$]: nothing, or one newline. *)
Definition line_end (nl : string) : Prop := nl = "" ∨ nl = String "010" "".

(** [m] is the longest decimal number that ends the token [o]. *)
Definition trailing_decimal (o m : string) : Prop :=
  ∃ pre nl : string,
    o = pre ++ m ++ nl ∧ line_end nl ∧ decimal m ∧
    ∀ pre' m' nl' : string,
      o = pre' ++ m' ++ nl' → line_end nl' → decimal m' →
      (String.length pre ≤ String.length pre')%nat.

Definition no_trailing_decimal (o : string) : Prop :=
  ∀ pre m nl : string, o = pre ++ m ++ nl → line_end nl → ¬ decimal m.

(** [float_regex = "[0-9]*\.?[0-9]+$"] *)
Definition float_regex : Re.regex :=
  [Re.Rep Re.Star Re.Digit; Re.Rep Re.Optional (Re.Lit ".");
   Re.Rep Re.Plus Re.Digit; Re.Eol].

(** [r'^\d+h$'] with [re.IGNORECASE] *)
Definition resample_regex : Re.regex :=
  [Re.Bol; Re.Rep Re.Plus Re.Digit; Re.Rep Re.One (Re.LitNoCase "h"); Re.Eol].

(** ** Numbers

    [float(text)] on the decimal forms: optional blanks and sign, digits
    with an optional point, an optional exponent.  The other texts Python
    accepts ([inf], [nan], digits grouped with underscores) are outside
    this model and read as a [ValueError] here; what is proved about a text
    that [float] reads takes the number read as a hypothesis. *)

Module PyFloat.

Definition is_space (c : ascii) : bool :=
  let n := nat_of_ascii c in
  (n =? 32)%nat || ((9 <=? n)%nat && (n <=? 13)%nat).

Fixpoint lstrip (s : string) : string :=
  match s with
  | String c s' => if is_space c then lstrip s' else s
  | EmptyString => s
  end.

Fixpoint all_space (s : string) : bool :=
  match s with
  | String c s' => is_space c && all_space s'
  | EmptyString => true
  end.

(** The leading digits of a text (as numbers) and what follows them. *)
Fixpoint span_digits (s : string) : list Z * string :=
  match s with
  | String c s' =>
      if PyStr.is_digit c then
        let '(ds, rest) := span_digits s' in (PyStr.digit_val c :: ds, rest)
      else ([], s)
  | EmptyString => ([], s)
  end.

Definition digits_val (ds : list Z) : Z :=
  fold_left (fun acc d => 10 * acc + d)%Z ds 0%Z.

Definition sign (s : string) : bool * string :=
  match s with
  | String "-" s' => (true, s')
  | String "+" s' => (false, s')
  | _ => (false, s)
  end.

Definition pow10 (e : Z) : Q := Qpower 10 e.

Definition exponent (s : string) : option Z :=
  match s with
  | String c s' =>
      if Ascii.eqb c "e" || Ascii.eqb c "E" then
        let '(neg, s1) := sign s' in
        let '(ds, rest) := span_digits s1 in
        match ds with
        | [] => None
        | _ => if all_space rest
               then Some (if neg then - digits_val ds else digits_val ds)%Z
               else None
        end
      else if all_space s then Some 0%Z else None
  | EmptyString => Some 0%Z
  end.

Definition parse (s : string) : option Q :=
  let '(neg, s1) := sign (lstrip s) in
  let '(ip, s2) := span_digits s1 in
  let '(fp, s3) := match s2 with
                   | String "." t => span_digits t
                   | _ => ([], s2)
                   end in
  match (ip ++ fp)%list with
  | [] => None
  | ds =>
      e ← exponent s3;
      let m := (digits_val ds # 1) * pow10 (e - Z.of_nat (length fp)) in
      Some (if neg then - m else m)
  end.

Definition float (s : string) : result Q :=
  match parse s with
  | Some q => Ok q
  | None => Raise (ValueError s)
  end.

End PyFloat.

(** A cell of a numeric column that the script computes: a finite number,
    an infinity or [nan]. *)
Inductive fnum : Type :=
| Num (q : Q)
| PInf
| NInf
| NaN.

Module F.

Definition sgn (q : Q) : comparison := q ?= 0.

Definition inf_of (c : comparison) : fnum :=
  match c with
  | Gt => PInf
  | Lt => NInf
  | Eq => NaN
  end.

Definition flip (c : comparison) : comparison :=
  match c with
  | Gt => Lt
  | Lt => Gt
  | Eq => Eq
  end.

Definition add (a b : fnum) : fnum :=
  match a, b with
  | NaN, _ | _, NaN => NaN
  | Num x, Num y => Num (x + y)
  | PInf, NInf | NInf, PInf => NaN
  | PInf, _ | _, PInf => PInf
  | NInf, _ | _, NInf => NInf
  end.

Definition mul (a b : fnum) : fnum :=
  match a, b with
  | NaN, _ | _, NaN => NaN
  | Num x, Num y => Num (x * y)
  | Num x, PInf | PInf, Num x => inf_of (sgn x)
  | Num x, NInf | NInf, Num x => inf_of (flip (sgn x))
  | PInf, PInf | NInf, NInf => PInf
  | PInf, NInf | NInf, PInf => NInf
  end.

(** Division of finite numbers as numpy does it: a zero divisor gives an
    infinity, or [nan] for 0/0. *)
Definition div (x y : Q) : fnum :=
  if Qeq_bool y 0 then inf_of (sgn x) else Num (x / y).

Definition leb (a b : fnum) : bool :=
  match a, b with
  | NaN, _ | _, NaN => false
  | NInf, _ | _, PInf => true
  | Num x, Num y => Qle_bool x y
  | _, _ => false
  end.

(** [x.clip(upper=u)] on one cell: [nan] stays, and a [nan] bound clips
    nothing. *)
Definition clip_upper (u x : fnum) : fnum :=
  match u, x with
  | NaN, _ | _, NaN => x
  | _, _ => if leb x u then x else u
  end.

(** [np.clip(x, lo, hi)] on finite numbers. *)
Definition clip (x lo hi : Q) : Q := Qmin (Qmax x lo) hi.

(** Equality of cells up to the value of the rationals. *)
Definition eq (a b : fnum) : Prop :=
  match a, b with
  | Num x, Num y => x == y
  | PInf, PInf | NInf, NInf | NaN, NaN => True
  | _, _ => False
  end.

End F.

(** ** The network *)

Module Bus.
Record t : Type := mk { v_nom : Q; country : string }.
End Bus.

Module LineType.
Record t : Type := mk { i_nom : Q }.
End LineType.

Module Line.
Record t : Type := mk {
  bus0 : string;
  bus1 : string;
  type : string;
  num_parallel : Q;
  length : Q;
  s_nom : Q;
  s_nom_min : fnum;
  s_nom_max : fnum;
  s_nom_extendable : bool;
  s_max_pu : Q;
  capital_cost : Q
}.

Definition set_s_max_pu (v : Q) (l : t) : t :=
  mk (bus0 l) (bus1 l) (type l) (num_parallel l) (length l) (s_nom l)
     (s_nom_min l) (s_nom_max l) (s_nom_extendable l) v (capital_cost l).
Definition set_s_nom_min (v : fnum) (l : t) : t :=
  mk (bus0 l) (bus1 l) (type l) (num_parallel l) (length l) (s_nom l)
     v (s_nom_max l) (s_nom_extendable l) (s_max_pu l) (capital_cost l).
Definition set_s_nom_max (v : fnum) (l : t) : t :=
  mk (bus0 l) (bus1 l) (type l) (num_parallel l) (length l) (s_nom l)
     (s_nom_min l) v (s_nom_extendable l) (s_max_pu l) (capital_cost l).
Definition set_s_nom_extendable (v : bool) (l : t) : t :=
  mk (bus0 l) (bus1 l) (type l) (num_parallel l) (length l) (s_nom l)
     (s_nom_min l) (s_nom_max l) v (s_max_pu l) (capital_cost l).
Definition set_capital_cost (v : Q) (l : t) : t :=
  mk (bus0 l) (bus1 l) (type l) (num_parallel l) (length l) (s_nom l)
     (s_nom_min l) (s_nom_max l) (s_nom_extendable l) (s_max_pu l) v.
End Line.

Module Link.
Record t : Type := mk {
  bus0 : string;
  bus1 : string;
  carrier : string;
  length : Q;
  p_nom : Q;
  p_nom_min : Q;
  p_nom_max : fnum;
  p_nom_extendable : bool;
  capital_cost : Q
}.

Definition set_p_nom_min (v : Q) (l : t) : t :=
  mk (bus0 l) (bus1 l) (carrier l) (length l) (p_nom l) v (p_nom_max l)
     (p_nom_extendable l) (capital_cost l).
Definition set_p_nom_max (v : fnum) (l : t) : t :=
  mk (bus0 l) (bus1 l) (carrier l) (length l) (p_nom l) (p_nom_min l) v
     (p_nom_extendable l) (capital_cost l).
Definition set_p_nom_extendable (v : bool) (l : t) : t :=
  mk (bus0 l) (bus1 l) (carrier l) (length l) (p_nom l) (p_nom_min l)
     (p_nom_max l) v (capital_cost l).
Definition set_capital_cost (v : Q) (l : t) : t :=
  mk (bus0 l) (bus1 l) (carrier l) (length l) (p_nom l) (p_nom_min l)
     (p_nom_max l) (p_nom_extendable l) v.
End Link.

Module Generator.
Record t : Type := mk {
  carrier : string;
  efficiency : Q;
  marginal_cost : fnum;
  capital_cost : Q
}.

Definition set_marginal_cost (v : fnum) (g : t) : t :=
  mk (carrier g) (efficiency g) v (capital_cost g).
Definition set_capital_cost (v : Q) (g : t) : t :=
  mk (carrier g) (efficiency g) (marginal_cost g) v.
End Generator.

Module StorageUnit.
Record t : Type := mk {
  carrier : string;
  efficiency_dispatch : Q;
  marginal_cost : fnum;
  capital_cost : Q
}.

Definition set_marginal_cost (v : fnum) (u : t) : t :=
  mk (carrier u) (efficiency_dispatch u) v (capital_cost u).
Definition set_capital_cost (v : Q) (u : t) : t :=
  mk (carrier u) (efficiency_dispatch u) (marginal_cost u) v.
End StorageUnit.

Module GlobalConstraint.
Record t : Type := mk {
  type : string;
  carrier_attribute : string;
  sense : string;
  constant : fnum
}.
End GlobalConstraint.

(** A time-indexed column: the time stamps (nanoseconds, as pandas keeps
    them) with the value at each, [None] for [nan]. *)
Definition series : Type := list (Z * option Q).

(** A time-indexed frame of a component: its columns by component name. *)
Abbreviation frame := (gmap string series).

Record Network : Type := mkNetwork {
  buses : gmap string Bus.t;
  carriers : gmap string (gmap string Q);   (* row: the numeric columns *)
  line_types : gmap string LineType.t;
  lines : gmap string Line.t;
  links : gmap string Link.t;
  generators : gmap string Generator.t;
  storage_units : gmap string StorageUnit.t;
  global_constraints : gmap string GlobalConstraint.t;
  snapshot_weightings : list (Z * Q);
  pnl : gmap (string * string) frame        (* (list name, attribute) *)
}.

Definition with_lines (v : gmap string Line.t) (n : Network) : Network :=
  mkNetwork (buses n) (carriers n) (line_types n) v (links n) (generators n)
            (storage_units n) (global_constraints n) (snapshot_weightings n)
            (pnl n).
Definition with_links (v : gmap string Link.t) (n : Network) : Network :=
  mkNetwork (buses n) (carriers n) (line_types n) (lines n) v (generators n)
            (storage_units n) (global_constraints n) (snapshot_weightings n)
            (pnl n).
Definition with_generators (v : gmap string Generator.t) (n : Network) : Network :=
  mkNetwork (buses n) (carriers n) (line_types n) (lines n) (links n) v
            (storage_units n) (global_constraints n) (snapshot_weightings n)
            (pnl n).
Definition with_storage_units (v : gmap string StorageUnit.t) (n : Network) : Network :=
  mkNetwork (buses n) (carriers n) (line_types n) (lines n) (links n)
            (generators n) v (global_constraints n) (snapshot_weightings n)
            (pnl n).
Definition with_global_constraints (v : gmap string GlobalConstraint.t)
           (n : Network) : Network :=
  mkNetwork (buses n) (carriers n) (line_types n) (lines n) (links n)
            (generators n) (storage_units n) v (snapshot_weightings n) (pnl n).
Definition with_time (w : list (Z * Q)) (p : gmap (string * string) frame)
           (n : Network) : Network :=
  mkNetwork (buses n) (carriers n) (line_types n) (lines n) (links n)
            (generators n) (storage_units n) (global_constraints n) w p.

(** [n.add("GlobalConstraint", name, ...)]: pypsa asserts that the name is
    new. *)
Definition add_global_constraint (name : string) (c : GlobalConstraint.t)
           (n : Network) : result Network :=
  match global_constraints n !! name with
  | Some _ => Raise (AssertionError name)
  | None => Ok (with_global_constraints (<[name := c]> (global_constraints n)) n)
  end.

(** ** The configuration ([snakemake.config]) *)

Record Config : Type := mkConfig {
  electricity : option (gmap string Q);
  costs : option (gmap string (gmap string Q));  (* [emission_prices] is a dict *)
  cfg_lines : option (gmap string fnum);
  cfg_links : option (gmap string fnum)
}.

(** [d[k]], raising [KeyError]. *)
Definition getitem {V} (d : option (gmap string V)) (section k : string)
  : result V :=
  match d with
  | None => Raise (KeyError section)
  | Some m =>
      match m !! k with
      | Some v => Ok v
      | None => Raise (KeyError k)
      end
  end.

(** [d.get(k, default)] on a section that has to exist. *)
Definition get_default {V} (d : option (gmap string V)) (section k : string)
           (dflt : V) : result V :=
  match d with
  | None => Raise (KeyError section)
  | Some m => Ok (default dflt (m !! k))
  end.

(** ** Sums over tables and time stamps *)

Definition qsum (l : list Q) : Q := foldr Qplus 0 l.

(** The sum of a column ([nan] and the infinities propagate, as in
    [Series @ Series]). *)
Definition fsum (m : gmap string fnum) : fnum :=
  map_fold (fun _ v acc => F.add acc v) (Num 0) m.

(** [Series.sum()] of a row of finite numbers. *)
Definition row_sum (m : gmap string Q) : Q :=
  map_fold (fun _ v acc => acc + v) 0 m.

(** ** Resampling ([Series.resample(offset)])

    pandas cuts the time axis into bins of the width of the offset, closed
    on the left and labelled by their left edge, counted from the midnight
    before the first time stamp; every bin from that of the first to that
    of the last time stamp appears in the result, the empty ones too. *)

Module Resample.

Definition hour : Z := 3600 * 10 ^ 9.
Definition day : Z := 24 * hour.

(** [to_offset(m.group(0))] for a text that [resample_regex] matched:
    the number of hours, as nanoseconds.  pandas refuses a zero width. *)
Definition parse_offset (offset : string) : result Z :=
  match PyFloat.span_digits offset with
  | ([], _) => Raise (ValueError offset)
  | (ds, rest) =>
      if bool_decide (rest = "h" ∨ rest = "H") then
        if (0 <? PyFloat.digits_val ds)%Z
        then Ok (PyFloat.digits_val ds * hour)%Z
        else Raise (ValueError offset)
      else Raise (ValueError offset)
  end.

Definition bin (origin w t : Z) : Z := ((t - origin) / w)%Z.

Definition in_bin {A} (origin w k : Z) (s : list (Z * A)) : list A :=
  snd <$> filter (fun p => bin origin w p.1 = k) s.

Definition resample {A B} (agg : list A → B) (w : Z) (s : list (Z * A))
  : list (Z * B) :=
  match s with
  | [] => []
  | (t0, _) :: rest =>
      let lo := foldr Z.min t0 (fst <$> rest) in
      let hi := foldr Z.max t0 (fst <$> rest) in
      let origin := (day * (lo / day))%Z in
      let first := bin origin w lo in
      let last := bin origin w hi in
      (fun k => ((origin + k * w)%Z, agg (in_bin origin w k s)))
        <$> seqZ first (last - first + 1)
  end.

(** [.sum()] of a bin. *)
Definition sum (w : Z) (s : list (Z * Q)) : list (Z * Q) := resample qsum w s.

(** [.mean()] of a bin: [nan] cells are skipped, and a bin without a
    number is [nan]. *)
Definition mean_of (vs : list (option Q)) : option Q :=
  match omap id vs with
  | [] => None
  | xs => Some (qsum xs / inject_Z (Z.of_nat (List.length xs)))
  end.

Definition mean (w : Z) (s : series) : series := resample mean_of w s.

End Resample.

(** [df.empty]: no column, or no row. *)
Definition frame_empty (df : frame) : bool :=
  bool_decide (map_Forall (fun _ s => s = []) df).

(** ** The modifiers *)

(** [np.sqrt(3)], the double nearest to the root. *)
Definition sqrt3 : Q := 3900231685776981 # 2251799813685248.

Section Preparer.

(** The capital cost that the cost table gives a line and a DC link (by
    name and row) for a number of years. *)
Variable line_cost : Q → string → Line.t → Q.
Variable dc_link_cost : Q → string → Link.t → Q.

(** [snakemake.config] *)
Variable config : Config.

Definition is_dc (l : Link.t) : bool := bool_decide (Link.carrier l = "DC").

(** Modelled from the spec: [load_costs] and [update_transmission_costs]
    of add_electricity.py are not among the sources.  The cost table is
    used to recompute the capital costs of the transmission components: the
    lines and the DC links get the capital cost of the table, and nothing
    else changes. *)
Definition update_transmission_costs (Nyears : Q) (n : Network) : Network :=
  let n1 :=
    with_lines
      (map_imap (fun k l => Some (Line.set_capital_cost (line_cost Nyears k l) l))
                (lines n)) n in
  with_links
    (map_imap (fun k l =>
                 Some (if is_dc l
                       then Link.set_capital_cost (dc_link_cost Nyears k l) l
                       else l))
              (links n1)) n1.

Definition add_co2limit (n : Network) (Nyears : Q) (factor : option Q)
  : result Network :=
  annual_emissions ←
    match factor with
    | Some f =>
        co2base ← getitem (electricity config) "electricity" "co2base";
        Ok (f * co2base)
    | None => getitem (electricity config) "electricity" "co2limit"
    end;
  add_global_constraint "CO2Limit"
    (GlobalConstraint.mk "primary_energy" "co2_emissions" "<="
                         (Num (annual_emissions * Nyears))) n.

(** The price of the emissions of one carrier: the row of the carrier in
    the columns named like [_emissions], times the prices renamed to those
    column names, summed over the columns both have. *)
Definition carrier_price (prices : gmap string Q) (row : gmap string Q) : Q :=
  let renamed : gmap string Q := kmap (fun x => x ++ "_emissions") prices in
  let cols := filter (fun kv => PyStr.contains "_emissions" kv.1 = true) row in
  row_sum (intersection_with (fun p v => Some (p * v)) renamed cols).

Definition emission_price_of (n : Network) (prices : gmap string Q)
           (carrier : string) (efficiency : Q) : fnum :=
  match carriers n !! carrier with
  | Some row => F.div (carrier_price prices row) efficiency
  | None => NaN
  end.

Definition add_emission_prices (n : Network)
           (emission_prices : option (gmap string Q)) (exclude_co2 : bool)
  : result Network :=
  prices ←
    match emission_prices with
    | Some p => Ok p
    | None => getitem (costs config) "costs" "emission_prices"
    end;
  prices ←
    (if exclude_co2 then
       match prices !! "co2" with
       | Some _ => Ok (delete "co2" prices)
       | None => Raise (KeyError "co2")
       end
     else Ok prices);
  let gens :=
    (fun g => Generator.set_marginal_cost
                (F.add (Generator.marginal_cost g)
                       (emission_price_of n prices (Generator.carrier g)
                                          (Generator.efficiency g))) g)
      <$> generators n in
  let sus :=
    (fun u => StorageUnit.set_marginal_cost
                (F.add (StorageUnit.marginal_cost u)
                       (emission_price_of n prices (StorageUnit.carrier u)
                                          (StorageUnit.efficiency_dispatch u))) u)
      <$> storage_units n in
  Ok (with_storage_units sus (with_generators gens n)).

(** The N-1 security margin for a number of clusters. *)
Definition margin_raw (n_clusters : nat) : Q :=
  0.5 + 0.2 * (inject_Z (Z.of_nat n_clusters) - 37) / (200 - 37).

Definition margin (n_clusters : nat) : Q := F.clip (margin_raw n_clusters) 0.5 0.7.

Definition set_lines_s_max_pu (v : Q) (n : Network) : Network :=
  with_lines (Line.set_s_max_pu v <$> lines n) n.

Definition set_line_s_max_pu (n : Network) : Network :=
  let n_clusters := size (buses n) in
  set_lines_s_max_pu (margin n_clusters) n.

(** The nominal capacity of a line: its [s_nom] when it has no type, else
    the capacity of its type at the voltage of its first bus; a type or
    bus that is not in the network gives [nan]. *)
Definition line_s_nom (n : Network) (l : Line.t) : fnum :=
  if bool_decide (Line.type l = "") then Num (Line.s_nom l)
  else
    match line_types n !! Line.type l, buses n !! Line.bus0 l with
    | Some ty, Some b =>
        Num (sqrt3 * LineType.i_nom ty * Line.num_parallel l * Bus.v_nom b)
    | _, _ => NaN
    end.

Definition links_dc (n : Network) : gmap string Link.t :=
  filter (fun kv => is_dc kv.2 = true) (links n).

Definition line_col (ll_type : string) (l : Line.t) : Q :=
  if bool_decide (ll_type = "c") then Line.capital_cost l else Line.length l.
Definition link_col (ll_type : string) (l : Link.t) : Q :=
  if bool_decide (ll_type = "c") then Link.capital_cost l else Link.length l.

(** [ref]: capacity times cost (or length), over the lines and the DC
    links. *)
Definition reference (n : Network) (ll_type : string) : fnum :=
  F.add
    (fsum ((fun l => F.mul (line_s_nom n l) (Num (line_col ll_type l)))
             <$> lines n))
    (fsum ((fun l => Num (Link.p_nom l * link_col ll_type l)) <$> links_dc n)).

Definition make_extendable (old n : Network) : Network :=
  let n1 :=
    with_lines
      ((fun l => Line.set_s_nom_extendable true
                   (Line.set_s_nom_min (line_s_nom old l) l)) <$> lines n) n in
  with_links
    ((fun l => if is_dc l
               then Link.set_p_nom_extendable true
                      (Link.set_p_nom_min (Link.p_nom l) l)
               else l) <$> links n1) n1.

Definition set_transmission_limit (n : Network) (ll_type factor : string)
           (Nyears : Q) : result Network :=
  let ref := reference n ll_type in
  let n1 := update_transmission_costs Nyears n in
  extend ←
    (if bool_decide (factor = "opt") then Ok true
     else f ← PyFloat.float factor; Ok (negb (Qle_bool f 1.0)));
  let n2 := if extend : bool then make_extendable n n1 else n1 in
  if negb (bool_decide (factor = "opt")) then
    let con_type :=
      if bool_decide (ll_type = "c") then "expansion_cost"
      else "volume_expansion" in
    f ← PyFloat.float factor;
    let rhs := F.mul (Num f) ref in
    add_global_constraint ("l" ++ ll_type ++ "_limit")
      (GlobalConstraint.mk ("transmission_" ++ con_type ++ "_limit")
                           "AC, DC" "<=" rhs) n2
  else Ok n2.

Definition average_every_nhours (n : Network) (offset : string)
  : result Network :=
  w ← Resample.parse_offset offset;
  let snapshot_weightings := Resample.sum w (snapshot_weightings n) in
  let pnl :=
    (fun df : frame => if frame_empty df then (∅ : frame)
                       else Resample.mean w <$> df) <$> pnl n in
  Ok (with_time snapshot_weightings pnl n).

(** [a.map(n.buses.country)] at one row. *)
Definition country_of (n : Network) (bus : string) : option string :=
  Bus.country <$> buses n !! bus.

(** [!=] on two cells: a [nan] differs from everything. *)
Definition cell_ne (a b : option string) : bool :=
  match a, b with
  | Some x, Some y => negb (String.eqb x y)
  | _, _ => true
  end.

(** [n.mremove(class, names)]: the rows go, and their columns in the
    time-indexed frames of the class. *)
Definition drop_columns (list_name : string) (names : gset string)
           (p : gmap (string * string) frame) : gmap (string * string) frame :=
  map_imap (fun k (df : frame) =>
              Some (if bool_decide (k.1 = list_name)
                    then filter (fun kv => kv.1 ∉ names) df
                    else df)) p.

Definition mremove_lines (names : gset string) (n : Network) : Network :=
  with_time (snapshot_weightings n) (drop_columns "lines" names (pnl n))
            (with_lines (filter (fun kv => kv.1 ∉ names) (lines n)) n).

Definition mremove_links (names : gset string) (n : Network) : Network :=
  with_time (snapshot_weightings n) (drop_columns "links" names (pnl n))
            (with_links (filter (fun kv => kv.1 ∉ names) (links n)) n).

Definition line_crossborder (n : Network) (l : Line.t) : bool :=
  cell_ne (country_of n (Line.bus0 l)) (country_of n (Line.bus1 l)).
Definition link_crossborder (n : Network) (l : Link.t) : bool :=
  cell_ne (country_of n (Link.bus0 l)) (country_of n (Link.bus1 l)).

Definition enforce_autarky (n : Network) (only_crossborder : bool) : Network :=
  let lines_rm : gset string :=
    if only_crossborder
    then dom (filter (fun kv => line_crossborder n kv.2 = true) (lines n))
    else dom (lines n) in
  let links_rm : gset string :=
    if only_crossborder
    then dom (filter (fun kv => link_crossborder n kv.2 = true) (links n))
    else dom (links n) in
  mremove_links links_rm (mremove_lines lines_rm n).

Definition set_line_nom_max (n : Network) : result Network :=
  s_nom_max_set ← get_default (cfg_lines config) "lines" "s_nom_max," PInf;
  p_nom_max_set ← get_default (cfg_links config) "links" "p_nom_max" PInf;
  let n1 :=
    with_lines
      ((fun l => Line.set_s_nom_max
                   (F.clip_upper s_nom_max_set (Line.s_nom_max l)) l)
         <$> lines n) n in
  Ok (with_links
        ((fun l => Link.set_p_nom_max
                     (F.clip_upper p_nom_max_set (Link.p_nom_max l)) l)
           <$> links n1) n1).

(** *** The script: the loops over the option tokens *)

(** [for o in opts: n = step(o, n)], stopping at the first exception. *)
Fixpoint for_each (step : string → Network → result Network)
         (opts : list string) (n : Network) : result Network :=
  match opts with
  | [] => Ok n
  | o :: rest => n' ← step o n; for_each step rest n'
  end.

(** The first token that is a resampling offset resamples the network
    and ends the loop. *)
Fixpoint resample_loop (opts : list string) (n : Network) : result Network :=
  match opts with
  | [] => Ok n
  | o :: rest =>
      match Re.match_ resample_regex o with
      | Some m => average_every_nhours n m
      | None => resample_loop rest n
      end
  end.

Definition co2l_step (Nyears : Q) (o : string) (n : Network) : result Network :=
  if PyStr.contains "Co2L" o then
    match Re.findall_head float_regex o with
    | Some m0 =>
        co2limit ← PyFloat.float m0;
        add_co2limit n Nyears (Some co2limit)
    | None => add_co2limit n Nyears None
    end
  else Ok n.

Definition sc_step (o : string) (n : Network) : result Network :=
  if PyStr.contains "SC" o then
    match Re.findall_head float_regex o with
    | Some m0 =>
        s_max_pu ← PyFloat.float m0;
        Ok (set_lines_s_max_pu s_max_pu n)
    | None => Ok (set_lines_s_max_pu 1 n)
    end
  else Ok n.

Definition ep_step (o : string) (n : Network) : result Network :=
  if PyStr.contains "Ep" o then
    ep ← match Re.findall_head float_regex o with
         | Some m0 =>
             co2 ← PyFloat.float m0;
             Ok (Some ({[ "co2" := co2 ]} : gmap string Q))
         | None => Ok None
         end;
    add_emission_prices n ep false
  else Ok n.

(** The body of the loop over the options: the three tests one after the
    other, on the same token. *)
Definition option_step (Nyears : Q) (o : string) (n : Network)
  : result Network :=
  n1 ← co2l_step Nyears o n;
  n2 ← sc_step o n1;
  ep_step o n2.

(** The first segment of every carrier name. *)
Definition suptechs (n : Network) : list string :=
  PyStr.first_segment "-" <$> (map_to_list (carriers n)).*1.

(** [str.contains(carrier)] takes its argument as a regular expression;
    on a text without the special characters of [re] that is the search
    for the text itself, which is what the model does. *)
Definition regex_special (c : ascii) : bool :=
  existsb (Ascii.eqb c) (list_ascii_of_string ".^$*+?{}[]\|()").

Fixpoint regex_plain (s : string) : bool :=
  match s with
  | EmptyString => true
  | String c s' => negb (regex_special c) && regex_plain s'
  end.

Definition str_contains (pat s : string) : bool := PyStr.contains pat s.

Definition scale_carrier (carrier : string) (cost_factor : Q) (n : Network)
  : Network :=
  let gens :=
    (fun g => if str_contains carrier (Generator.carrier g)
              then Generator.set_capital_cost
                     (Generator.capital_cost g * cost_factor) g
              else g) <$> generators n in
  let lks :=
    (fun l => if str_contains carrier (Link.carrier l)
              then Link.set_capital_cost (Link.capital_cost l * cost_factor) l
              else l) <$> links n in
  let sus :=
    (fun u => if str_contains carrier (StorageUnit.carrier u)
              then StorageUnit.set_capital_cost
                     (StorageUnit.capital_cost u * cost_factor) u
              else u) <$> storage_units n in
  with_storage_units sus (with_links lks (with_generators gens n)).

Definition scale_lines (cost_factor : Q) (n : Network) : Network :=
  with_lines
    ((fun l => Line.set_capital_cost (Line.capital_cost l * cost_factor) l)
       <$> lines n) n.

Definition carrier_step (o : string) (n : Network) : result Network :=
  let oo := PyStr.split "+" o in
  oo0 ← PyStr.item oo 0;
  if PyStr.startswith_any oo0 (suptechs n) then
    let carrier := oo0 in
    oo1 ← PyStr.item oo 1;
    cost_factor ← PyFloat.float oo1;
    if bool_decide (carrier = "AC") then Ok (scale_lines cost_factor n)
    else Ok (scale_carrier carrier cost_factor n)
  else Ok n.

Definition autarky_step (opts : list string) (n : Network) : Network :=
  if bool_decide ("ATK" ∈ opts) then enforce_autarky n false
  else if bool_decide ("ATKc" ∈ opts) then enforce_autarky n true
  else n.

Definition Nyears_of (n : Network) : Q :=
  qsum (snd <$> snapshot_weightings n) / 8760.

(** The script from the loaded network to the network it exports, for the
    list of option tokens and the wildcard [ll]. *)
Definition main_tokens (opts : list string) (ll : string) (n : Network)
  : result Network :=
  let Nyears := Nyears_of n in
  let n := set_line_s_max_pu n in
  n ← resample_loop opts n;
  n ← for_each (option_step Nyears) opts n;
  n ← for_each carrier_step opts n;
  match ll with
  | EmptyString => Raise IndexError
  | String c factor =>
      let ll_type := String c EmptyString in
      n ← set_transmission_limit n ll_type factor Nyears;
      n ← set_line_nom_max n;
      Ok (autarky_step opts n)
  end.

(** [opts = snakemake.wildcards.opts.split('-')] *)
Definition main (opts_wildcard ll : string) (n : Network) : result Network :=
  main_tokens (PyStr.split "-" opts_wildcard) ll n.

End Preparer.

(** ** The words of the claims about tokens *)

(** The number a token carries: [None] when no decimal number ends it, else
    what [float] reads in the longest decimal number that ends it. *)
Definition token_value (o : string) (v : option Q) : Prop :=
  (no_trailing_decimal o ∧ v = None)
  ∨ (∃ (m : string) (f : Q),
        trailing_decimal o m ∧ PyFloat.float m = Ok f ∧ v = Some f).

(** The digits of a text of digits, as numbers. *)
Fixpoint digs (s : string) : list Z :=
  match s with
  | EmptyString => []
  | String c s' => PyStr.digit_val c :: digs s'
  end.

(** The pattern for "the first decimal number found in the token": the
    pattern of the script without the anchor at the end. *)
Definition unanchored_float_regex : Re.regex :=
  [Re.Rep Re.Star Re.Digit; Re.Rep Re.Optional (Re.Lit ".");
   Re.Rep Re.Plus Re.Digit].

(** A token that no test of the script picks up, on a network [n]: not a
    resampling offset, without "Co2L", "SC" and "Ep", not "ATK" or "ATKc",
    and its text before the first "+" does not start with the first segment
    of a carrier name. *)
Definition ignored (n : Network) (o : string) : bool :=
  negb (bool_decide (is_Some (Re.match_ resample_regex o)))
  && negb (PyStr.contains "Co2L" o)
  && negb (PyStr.contains "SC" o)
  && negb (PyStr.contains "Ep" o)
  && negb (PyStr.startswith_any (hd "" (PyStr.split "+" o)) (suptechs n))
  && negb (bool_decide (o = "ATK"))
  && negb (bool_decide (o = "ATKc")).

(** ** What the cost scaling promises

    A row whose carrier contains the text [carrier] has its capital cost
    changed by [scale]; the other rows stay. *)
Definition scaled_generator (carrier : string) (scale : Q → Q)
           (g : Generator.t) : Generator.t :=
  if PyStr.contains carrier (Generator.carrier g)
  then Generator.set_capital_cost (scale (Generator.capital_cost g)) g else g.

Definition scaled_link (carrier : string) (scale : Q → Q) (l : Link.t) : Link.t :=
  if PyStr.contains carrier (Link.carrier l)
  then Link.set_capital_cost (scale (Link.capital_cost l)) l else l.

Definition scaled_storage_unit (carrier : string) (scale : Q → Q)
           (u : StorageUnit.t) : StorageUnit.t :=
  if PyStr.contains carrier (StorageUnit.carrier u)
  then StorageUnit.set_capital_cost (scale (StorageUnit.capital_cost u)) u else u.

Definition scaled_line (scale : Q → Q) (l : Line.t) : Line.t :=
  Line.set_capital_cost (scale (Line.capital_cost l)) l.

(** ** What the transmission limit promises

    [extendable_from n n']: every line of [n] is in [n'] marked extendable,
    with its nominal capacity in [n] as minimum, and so is every DC link of
    [n]; the tables have no other rows. *)
Definition extendable_from (n n' : Network) : Prop :=
  (∀ (k : string) (l : Line.t),
      lines n !! k = Some l →
      ∃ l' : Line.t,
        lines n' !! k = Some l' ∧
        Line.s_nom_extendable l' = true ∧
        Line.s_nom_min l' = line_s_nom n l ∧
        Line.s_nom l' = Line.s_nom l)
  ∧ (∀ (k : string) (l : Link.t),
        links n !! k = Some l → Link.carrier l = "DC" →
        ∃ l' : Link.t,
          links n' !! k = Some l' ∧
          Link.p_nom_extendable l' = true ∧
          Link.p_nom_min l' = Link.p_nom l ∧
          Link.p_nom l' = Link.p_nom l)
  ∧ dom (lines n') = dom (lines n)
  ∧ dom (links n') = dom (links n).

(** The constraint of the limit of type [ll_type] with the constant [rhs]. *)
Definition limit_constraint (ll_type : string) (rhs : fnum) : GlobalConstraint.t :=
  GlobalConstraint.mk
    (if bool_decide (ll_type = "c") then "transmission_expansion_cost_limit"
     else "transmission_volume_expansion_limit")
    "AC, DC" "<=" rhs.

(** ** A small network

    Three buses in two countries, a line inside Germany and one across the
    border, a DC link across the border and a gas pipeline link inside
    Germany, a gas and a biogas generator, a battery; three snapshots that
    stand for two years. *)

Module Sample.

Definition line (b0 b1 : string) (cost : Q) : Line.t :=
  Line.mk b0 b1 "" 1 100 1000 (Num 0) (Num 2000) false 1 cost.

Definition link (b0 b1 carrier : string) : Link.t :=
  Link.mk b0 b1 carrier 50 500 0 (Num 900) false 7.

Definition net : Network :=
  mkNetwork
    (list_to_map [("DE0", Bus.mk 380 "DE"); ("DE1", Bus.mk 380 "DE");
                  ("FR0", Bus.mk 380 "FR")])
    (list_to_map [("gas", {[ "co2_emissions" := 0.2 ]});
                  ("biogas", {[ "co2_emissions" := 0 ]});
                  ("solar", ∅); ("AC", ∅)])
    ∅
    (list_to_map [("L1", line "DE0" "DE1" 10); ("L2", line "DE0" "FR0" 20)])
    (list_to_map [("K1", link "DE1" "FR0" "DC");
                  ("K2", link "DE0" "DE1" "gas pipeline")])
    (list_to_map [("g1", Generator.mk "gas" 0.5 (Num 3) 100);
                  ("g2", Generator.mk "biogas" 0.4 (Num 3) 100)])
    (list_to_map [("s1", StorageUnit.mk "battery" 0.9 (Num 0) 50)])
    ∅
    [(0%Z, 5840); (Resample.hour, 5840); ((2 * Resample.hour)%Z, 5840)]
    ∅.

Definition cfg : Config :=
  mkConfig
    (Some (list_to_map [("co2base", 1000); ("co2limit", 100)]))
    (Some {[ "emission_prices" := {[ "co2" := 10 ]} ]})
    (Some {[ "s_nom_max" := Num 500 ]})
    (Some {[ "p_nom_max" := Num 800 ]}).

Definition line_cost (Nyears : Q) (name : string) (l : Line.t) : Q :=
  Line.length l * 2 * Nyears.
Definition dc_link_cost (Nyears : Q) (name : string) (l : Link.t) : Q :=
  Link.length l * 3 * Nyears.

End Sample.

(** ** Words for the properties of the token list *)

(** [sep.join(l)] *)
Fixpoint join (sep : ascii) (l : list string) : string :=
  match l with
  | [] => ""
  | [w] => w
  | w :: ws => w ++ String sep (join sep ws)
  end.

(** The character does not occur in the text. *)
Fixpoint no_char (c : ascii) (s : string) : Prop :=
  match s with
  | EmptyString => True
  | String a s' => a ≠ c ∧ no_char c s'
  end.

(** A resampling token: digits, an "h" or "H", and the end of the line;
    [hours] is the text of the digits. *)
Definition resampling_token (o hours : string) (h : ascii) : Prop :=
  ∃ nl : string,
    o = hours ++ String h nl ∧ line_end nl ∧
    Re.all_in Re.Digit hours = true ∧ hours ≠ "" ∧
    (h = "h"%char ∨ h = "H"%char).

(** The network has a constraint "CO2Limit". *)
Definition has_limit (n : Network) : Prop :=
  is_Some (global_constraints n !! "CO2Limit").

(** Every column of a time-indexed frame of the lines names a line, and
    every column of a frame of the links names a link. *)
Definition frames_consistent (n : Network) : Prop :=
  ∀ (attr col : string) (df : frame),
    (pnl n !! ("lines", attr) = Some df → is_Some (df !! col) →
     is_Some (lines n !! col))
    ∧ (pnl n !! ("links", attr) = Some df → is_Some (df !! col) →
       is_Some (links n !! col)).

(** Every line of the network has the security margin [v]. *)
Definition all_margin (v : Q) (n : Network) : Prop :=
  ∀ (k : string) (l : Line.t), lines n !! k = Some l → Line.s_max_pu l = v.

(** ** Variants of the small network *)

Module SampleMore.

(** A line of a type that the network has no entry for. *)
Definition typed_line : Line.t :=
  Line.mk "DE0" "DE1" "Al/St 240/40" 1 10 0 (Num 0) PInf false 1 1.

Definition net_typed : Network :=
  with_lines (<["L3" := typed_line]> (lines Sample.net)) Sample.net.

(** A line to a bus that the network does not have. *)
Definition net_loose : Network :=
  with_lines (<["L3" := Sample.line "DE0" "XX9" 5]> (lines Sample.net)) Sample.net.

(** The network with a time-indexed margin of the line L2. *)
Definition net_frames : Network :=
  with_time (snapshot_weightings Sample.net)
            {[ ("lines", "s_max_pu") :=
                 ({[ "L2" := [(0%Z, Some 1); (Resample.hour, Some 0.5)] ]} : frame) ]}
            Sample.net.

End SampleMore.

(** * Properties *)

#[local] Arguments String.append !_ _ / : simpl nomatch.

(** ** The patterns and the number parser on examples *)

Example float_regex_suffix : Re.findall_head float_regex "Co2L0.05" = Some "0.05".
Proof. reflexivity. Qed.

Example float_regex_no_suffix : Re.findall_head float_regex "0.7SC" = None.
Proof. reflexivity. Qed.

Example float_regex_point_end : Re.findall_head float_regex "Ep5." = None.
Proof. reflexivity. Qed.

Example resample_regex_24h : Re.match_ resample_regex "24H" = Some "24H".
Proof. reflexivity. Qed.

Example float_of_decimal :
  ∃ q, PyFloat.float "0.05" = Ok q ∧ q == 0.05.
Proof. eexists. split; [reflexivity|]. reflexivity. Qed.

Example split_keeps_empty : PyStr.split "-" "a--b-" = ["a"; ""; "b"; ""].
Proof. reflexivity. Qed.

(** ** The security margin *)

Lemma margin_raw_linear (c : nat) :
  margin_raw c == (1 # 2) + (1 # 815) * (inject_Z (Z.of_nat c) - 37).
Proof. unfold margin_raw. field. Qed.

Lemma margin_raw_le (c d : nat) : (c ≤ d)%nat → margin_raw c <= margin_raw d.
Proof.
  intros Hcd. rewrite !margin_raw_linear.
  assert (H : inject_Z (Z.of_nat c) <= inject_Z (Z.of_nat d))
    by (rewrite <- Zle_Qle; lia).
  lra.
Qed.

Lemma margin_unfold (c : nat) : margin c = Qmin (Qmax (margin_raw c) 0.5) 0.7.
Proof. reflexivity. Qed.

Lemma margin_low (c : nat) : (c ≤ 37)%nat → margin c == 0.5.
Proof.
  intros Hc. rewrite margin_unfold.
  assert (H : inject_Z (Z.of_nat c) <= inject_Z 37) by (rewrite <- Zle_Qle; lia).
  change (inject_Z 37) with 37 in H.
  assert (Hraw : margin_raw c <= 0.5) by (rewrite margin_raw_linear; lra).
  rewrite (Q.max_r _ _ Hraw).
  apply Q.min_l. lra.
Qed.

Lemma margin_high (c : nat) : (200 ≤ c)%nat → margin c == 0.7.
Proof.
  intros Hc. rewrite margin_unfold.
  assert (H : inject_Z 200 <= inject_Z (Z.of_nat c)) by (rewrite <- Zle_Qle; lia).
  change (inject_Z 200) with 200 in H.
  assert (Hraw : 0.7 <= margin_raw c) by (rewrite margin_raw_linear; lra).
  rewrite Q.max_l by lra.
  apply Q.min_r, Hraw.
Qed.

Lemma margin_mono (c d : nat) : (c ≤ d)%nat → margin c <= margin d.
Proof.
  intros Hcd. rewrite !margin_unfold.
  apply Q.min_le_compat_r, Q.max_le_compat_r, margin_raw_le, Hcd.
Qed.

Lemma set_lines_s_max_pu_lookup (v : Q) (n : Network) (k : string) (l : Line.t) :
  lines (set_lines_s_max_pu v n) !! k = Some l →
  Line.s_max_pu l = v ∧ ∃ l0, lines n !! k = Some l0 ∧ l = Line.set_s_max_pu v l0.
Proof.
  unfold set_lines_s_max_pu. cbn. rewrite lookup_fmap.
  destruct (lines n !! k) as [l0|] eqn:E; cbn; [|done].
  intros [= <-]. split; [done|]. by exists l0.
Qed.



(** ** The matcher against what a pattern matches *)

Module ReFacts.
Import Re.

Lemma match_star_sound c r :
  (∀ bos s k, match_here r bos s = Some k → Matches r bos s k) →
  ∀ s bos k, match_star c (match_here r) bos s = Some k →
             Matches (Rep Star c :: r) bos s k.
Proof.
  intros IH s. induction s as [|a s IHs]; intros bos k; cbn.
  - intros H. apply M_star_skip, IH, H.
  - destruct (in_class c a) eqn:Ec.
    + destruct (match_star c (match_here r) false s) as [n|] eqn:En.
      * intros [= <-]. apply M_star_take; [done|]. by apply IHs.
      * intros H. apply M_star_skip, IH, H.
    + intros H. apply M_star_skip, IH, H.
Qed.

(** Whatever the matcher returns is a match of the pattern. *)
Lemma match_here_sound r :
  ∀ bos s k, match_here r bos s = Some k → Matches r bos s k.
Proof.
  induction r as [|i r IH]; intros bos s k; cbn.
  - intros [= <-]. constructor.
  - destruct i as [q c| |].
    + destruct q.
      * destruct s as [|a s]; [done|].
        destruct (in_class c a) eqn:Ec; [|done].
        destruct (match_here r false s) as [n|] eqn:En; cbn; [|done].
        intros [= <-]. apply M_one; auto.
      * destruct s as [|a s].
        { intros H. apply M_opt_skip, IH, H. }
        destruct (in_class c a) eqn:Ec.
        -- destruct (match_here r false s) as [n|] eqn:En.
           ++ intros [= <-]. apply M_opt_take; auto.
           ++ intros H. apply M_opt_skip, IH, H.
        -- intros H. apply M_opt_skip, IH, H.
      * apply match_star_sound, IH.
      * destruct s as [|a s]; [done|].
        destruct (in_class c a) eqn:Ec; [|done].
        destruct (match_star c (match_here r) false s) as [n|] eqn:En;
          cbn; [|done].
        intros [= <-]. apply M_plus; [done|].
        by apply match_star_sound.
    + destruct bos; [|done]. intros H. apply M_bol, IH, H.
    + destruct (at_eol s) eqn:Ee; [|done]. intros H. apply M_eol; auto.
Qed.

Lemma match_star_skip c r bos s k :
  match_here r bos s = Some k →
  ∃ k', match_star c (match_here r) bos s = Some k'.
Proof.
  intros H. destruct s as [|a s]; cbn; [eauto|].
  destruct (in_class c a); [|eauto].
  destruct (match_star c (match_here r) false s); eauto.
Qed.

(** Backtracking loses no match: where the pattern matches, the matcher
    returns a match. *)
Lemma match_here_complete r bos s k :
  Matches r bos s k → ∃ k', match_here r bos s = Some k'.
Proof.
  induction 1 as [bos s|r s k _ IH|r bos s k He _ IH|c r bos a s k Hc _ IH
                 |c r bos a s k Hc _ IH|c r bos s k _ IH
                 |c r bos a s k Hc _ IH|c r bos s k _ IH
                 |c r bos a s k Hc _ IH]; cbn.
  - eauto.
  - exact IH.
  - rewrite He. exact IH.
  - rewrite Hc. destruct IH as [k' ->]. cbn. eauto.
  - rewrite Hc. destruct IH as [k' ->]. eauto.
  - destruct IH as [k' Hk']. destruct s as [|a s]; [eauto|].
    destruct (in_class c a); [|eauto].
    destruct (match_here r false s); eauto.
  - rewrite Hc. cbn in IH. destruct IH as [k' ->]. eauto.
  - destruct IH as [k' Hk']. eapply match_star_skip, Hk'.
  - rewrite Hc. cbn in IH. destruct IH as [k' ->]. cbn. eauto.
Qed.

End ReFacts.

(** ** Texts *)

Module StrFacts.

Lemma append_nil_r (s : string) : s ++ "" = s.
Proof. induction s as [|a s IH]; cbn; [done|]. by rewrite IH. Qed.

Lemma append_assoc (a b c : string) : (a ++ b) ++ c = a ++ b ++ c.
Proof. induction a as [|x a IH]; cbn; [done|]. by rewrite IH. Qed.

Lemma length_append (a b : string) :
  String.length (a ++ b) = (String.length a + String.length b)%nat.
Proof. induction a as [|x a IH]; cbn; [done|]. by rewrite IH. Qed.

Lemma substring_prefix (m r : string) :
  String.substring 0 (String.length m) (m ++ r) = m.
Proof.
  induction m as [|x m IH]; cbn.
  - by destruct r.
  - by rewrite IH.
Qed.

Lemma all_in_append c (a b : string) :
  Re.all_in c (a ++ b) = Re.all_in c a && Re.all_in c b.
Proof.
  induction a as [|x a IH]; cbn; [done|].
  rewrite IH. by rewrite andb_assoc.
Qed.

(** No character of the text is a newline. *)
Fixpoint one_line (s : string) : Prop :=
  match s with
  | EmptyString => True
  | String a s' => a ≠ "010"%char ∧ one_line s'
  end.

Lemma one_line_append (a b : string) :
  one_line a → one_line b → one_line (a ++ b).
Proof. induction a as [|x a IH]; cbn; [done|]. intros [? ?] ?. auto. Qed.

Lemma digits_one_line (s : string) : Re.all_in Re.Digit s = true → one_line s.
Proof.
  induction s as [|a s IH]; cbn; [done|].
  intros [Ha Hs]%andb_true_iff. split; [|auto].
  intros ->. discriminate Ha.
Qed.

Lemma decimal_one_line (m : string) : decimal m → one_line m.
Proof.
  intros (ip & fp & Hip & Hfp & _ & [-> | ->]).
  - apply one_line_append; by apply digits_one_line.
  - apply one_line_append; [by apply digits_one_line|].
    cbn. split; [done|]. by apply digits_one_line.
Qed.

(** A text has one reading as a line and its end. *)
Lemma line_split_unique (m m' nl nl' : string) :
  one_line m → one_line m' → line_end nl → line_end nl' →
  m ++ nl = m' ++ nl' → m = m' ∧ nl = nl'.
Proof.
  revert m'. induction m as [|a m IH]; intros m' Hm Hm' Hnl Hnl'.
  - destruct m' as [|a' m']; cbn; [done|].
    intros ->. destruct Hm' as [Ha' _].
    destruct Hnl as [E | E]; [done|]. by injection E as -> _.
  - destruct m' as [|a' m']; cbn.
    + intros <-. destruct Hm as [Ha _].
      destruct Hnl' as [E | E]; [done|]. by injection E as -> _.
    + intros [= -> E]. destruct Hm as [_ Hm], Hm' as [_ Hm'].
      destruct (IH m' Hm Hm' Hnl Hnl' E) as [-> ->]. done.
Qed.

End StrFacts.

(** ** What [float_regex] matches *)

Module FloatRegex.
Import Re ReFacts StrFacts.

Lemma star_inv c r bos s k :
  Matches (Rep Star c :: r) bos s k →
  ∃ (pre s' : string) (bos' : bool) (k' : nat),
    s = pre ++ s' ∧ all_in c pre = true ∧ Matches r bos' s' k' ∧
    k = (String.length pre + k')%nat.
Proof.
  intros H. remember (Rep Star c :: r) as R eqn:ER.
  induction H as [| | | | | |c0 r0 bos a s k Hc H IH|c0 r0 bos s k H _|];
    try discriminate ER.
  - injection ER as E1 E2. subst c0 r0.
    destruct (IH eq_refl) as (pre & s' & bos' & k' & -> & Hpre & HM & ->).
    exists (String a pre), s', bos', k'. cbn. rewrite Hc, Hpre. done.
  - injection ER as E1 E2. subst c0 r0. exists "", s, bos, k. done.
Qed.

Lemma star_intro c r (pre s' : string) k' :
  all_in c pre = true → (∀ b, Matches r b s' k') →
  ∀ b, Matches (Rep Star c :: r) b (pre ++ s') (String.length pre + k').
Proof.
  intros Hpre HM. induction pre as [|a pre IH]; intros b; cbn.
  - apply M_star_skip, HM.
  - cbn in Hpre. apply andb_true_iff in Hpre as [Ha Hpre].
    apply M_star_take; auto.
Qed.

Lemma at_eol_line_end (s : string) : at_eol s = true ↔ line_end s.
Proof.
  unfold line_end. destruct s as [|a [|b s]]; cbn.
  - split; [by left|done].
  - rewrite Ascii.eqb_eq. split.
    + intros ->. by right.
    + intros [E | E]; [discriminate E|]. by injection E.
  - split; [done|]. intros [E | E]; discriminate E.
Qed.

Lemma tail_inv b s k :
  Matches [Rep Plus Digit; Eol] b s k →
  ∃ fp nl : string,
    s = fp ++ nl ∧ all_in Digit fp = true ∧ fp ≠ "" ∧ line_end nl ∧
    k = String.length fp.
Proof.
  intros H. inversion H as [| | | | | | | |c r bos a s0 k0 Hc HS]; subst.
  apply star_inv in HS as (pre & s' & bos' & k' & -> & Hpre & HM & ->).
  inversion HM as [| |r bos s k He HN| | | | | |]; subst.
  inversion HN; subst.
  exists (String a pre), s'. split_and!.
  - done.
  - cbn [all_in]. by rewrite Hc, Hpre.
  - done.
  - by apply at_eol_line_end.
  - cbn. lia.
Qed.

Lemma tail_intro b (fp nl : string) :
  all_in Digit fp = true → fp ≠ "" → line_end nl →
  Matches [Rep Plus Digit; Eol] b (fp ++ nl) (String.length fp).
Proof.
  intros Hfp Hne Hnl. destruct fp as [|a fp]; [done|].
  cbn in Hfp. apply andb_true_iff in Hfp as [Ha Hfp]. cbn.
  apply M_plus; [done|].
  rewrite <- (Nat.add_0_r (String.length fp)).
  apply star_intro; [done|]. intros b'.
  apply M_eol; [by apply at_eol_line_end|]. constructor.
Qed.

Lemma matches_inv b s k :
  Matches float_regex b s k →
  ∃ m nl : string,
    s = m ++ nl ∧ decimal m ∧ line_end nl ∧ k = String.length m.
Proof.
  intros H.
  apply star_inv in H as (ip & s1 & b1 & k1 & -> & Hip & H & ->).
  inversion H as [| | | |c r bos a s k Hc HT|c r bos s k HT| | |]; subst.
  - apply tail_inv in HT as (fp & nl & -> & Hfp & Hne & Hnl & ->).
    cbn in Hc. apply Ascii.eqb_eq in Hc as ->.
    exists (ip ++ "." ++ fp), nl. split_and!.
    + rewrite append_assoc. done.
    + exists ip, fp. auto.
    + done.
    + rewrite length_append. cbn. done.
  - apply tail_inv in HT as (fp & nl & -> & Hfp & Hne & Hnl & ->).
    exists (ip ++ fp), nl. split_and!.
    + by rewrite append_assoc.
    + exists ip, fp. auto.
    + done.
    + by rewrite length_append.
Qed.

Lemma matches_intro b (m nl : string) :
  decimal m → line_end nl →
  Matches float_regex b (m ++ nl) (String.length m).
Proof.
  intros (ip & fp & Hip & Hfp & Hne & [-> | ->]) Hnl.
  - rewrite append_assoc, length_append.
    apply star_intro; [done|]. intros b'.
    apply M_opt_skip. by apply tail_intro.
  - rewrite append_assoc, length_append.
    apply star_intro; [done|]. intros b'. cbn.
    apply M_opt_take; [done|]. by apply tail_intro.
Qed.

(** The matcher at one position: it succeeds exactly on a decimal number
    that runs to the end of the text, and returns that number. *)
Lemma match_here_decimal b (m nl : string) :
  decimal m → line_end nl →
  match_here float_regex b (m ++ nl) = Some (String.length m).
Proof.
  intros Hm Hnl.
  destruct (match_here_complete _ _ _ _ (matches_intro b m nl Hm Hnl))
    as [k' Hk'].
  rewrite Hk'. f_equal.
  apply match_here_sound, matches_inv in Hk' as (m' & nl' & E & Hm' & Hnl' & ->).
  apply line_split_unique in E as [-> _]; auto using decimal_one_line.
Qed.

Lemma match_here_inv b s k :
  match_here float_regex b s = Some k →
  ∃ m nl : string,
    s = m ++ nl ∧ decimal m ∧ line_end nl ∧
    String.substring 0 k s = m.
Proof.
  intros H. apply match_here_sound, matches_inv in H
    as (m & nl & -> & Hm & Hnl & ->).
  exists m, nl. split_and!; try done. apply substring_prefix.
Qed.

Lemma scan_some b (o m : string) :
  scan float_regex b o = Some m → trailing_decimal o m.
Proof.
  revert b. induction o as [|c o IH]; intros b.
  - cbn. done.
  - cbn [scan].
    destruct (match_here float_regex b (String c o)) as [k|] eqn:Ek.
    + intros Hsub.
      apply match_here_inv in Ek as (m0 & nl & E & Hm & Hnl & Hk).
      assert (m0 = m) as -> by congruence.
      exists "", nl. rewrite E. split_and!; try done. intros. cbn. lia.
    + intros H. apply IH in H as (pre & nl & -> & Hnl & Hm & Hlong).
      exists (String c pre), nl. split_and!; try done.
      intros pre' m' nl' E Hnl' Hm'.
      destruct pre' as [|c' pre'].
      * cbn in E. rewrite E, match_here_decimal in Ek; done.
      * cbn in E. injection E as -> E. cbn.
        specialize (Hlong pre' m' nl' E Hnl' Hm'). lia.
Qed.

Lemma scan_none b (o : string) :
  scan float_regex b o = None → no_trailing_decimal o.
Proof.
  revert b. induction o as [|c o IH]; intros b.
  - cbn. intros _ pre m nl E Hnl Hm.
    destruct pre; [|done]. cbn in E.
    destruct Hm as (ip & fp & _ & _ & Hne & [-> | ->]);
      destruct ip, fp; done.
  - cbn [scan].
    destruct (match_here float_regex b (String c o)) as [k|] eqn:Ek; [done|].
    intros H pre m nl E Hnl Hm.
    destruct pre as [|c' pre].
    + cbn in E. rewrite E, match_here_decimal in Ek; done.
    + cbn in E. injection E as -> E. by eapply (IH false H).
Qed.

End FloatRegex.

(** ** The number at the end of a token *)

Module Suffix.
Import Re ReFacts StrFacts FloatRegex.

Lemma append_same_length (a a' b b' : string) :
  a ++ b = a' ++ b' → String.length a = String.length a' → a = a' ∧ b = b'.
Proof.
  revert a'. induction a as [|x a IH]; intros [|x' a']; cbn; try done.
  intros [= -> E] [= Hl]. by destruct (IH a' E Hl) as [-> ->].
Qed.

Lemma trailing_decimal_unique (o m m' : string) :
  trailing_decimal o m → trailing_decimal o m' → m = m'.
Proof.
  intros (pre & nl & E & Hnl & Hm & Hlong) (pre' & nl' & E' & Hnl' & Hm' & Hlong').
  assert (Hl : String.length pre = String.length pre').
  { apply Nat.le_antisymm; [eapply Hlong | eapply Hlong']; eauto. }
  rewrite E in E'.
  apply append_same_length in E' as [_ E']; [|done].
  apply line_split_unique in E' as [? _]; auto using decimal_one_line.
Qed.

Lemma trailing_not_none (o m : string) :
  trailing_decimal o m → no_trailing_decimal o → False.
Proof. intros (pre & nl & E & Hnl & Hm & _) Hno. exact (Hno _ _ _ E Hnl Hm). Qed.

(** Element 0 of [re.findall(float_regex, o)] is the longest decimal
    number that ends the token. *)
Lemma findall_trailing (o m : string) :
  findall_head float_regex o = Some m ↔ trailing_decimal o m.
Proof.
  split; [apply scan_some|]. intros Hm. unfold findall_head.
  destruct (scan float_regex true o) as [m'|] eqn:E.
  - f_equal. eapply trailing_decimal_unique; [|exact Hm]. by eapply scan_some.
  - exfalso. eapply trailing_not_none; [exact Hm|]. by eapply scan_none.
Qed.

(** The list is empty exactly when no decimal number ends the token. *)
Lemma findall_none (o : string) :
  findall_head float_regex o = None ↔ no_trailing_decimal o.
Proof.
  split; [apply scan_none|]. intros Hno. unfold findall_head.
  destruct (scan float_regex true o) as [m'|] eqn:E; [|done].
  exfalso. eapply trailing_not_none; [|exact Hno]. by eapply scan_some.
Qed.

End Suffix.

(** ** The CO2 limit *)

Lemma add_co2limit_fresh cfg (n : Network) (Ny : Q) (factor : option Q) (a : Q) :
  global_constraints n !! "CO2Limit" = None →
  match factor with
  | Some f => (fun B => f * B) <$> getitem (electricity cfg) "electricity" "co2base"
  | None => getitem (electricity cfg) "electricity" "co2limit"
  end = Ok a →
  add_co2limit cfg n Ny factor
  = Ok (with_global_constraints
          (<["CO2Limit" := GlobalConstraint.mk "primary_energy" "co2_emissions"
                             "<=" (Num (a * Ny))]> (global_constraints n)) n).
Proof.
  intros Hfresh Ha. unfold add_co2limit, add_global_constraint.
  destruct factor as [f|].
  - destruct (getitem (electricity cfg) "electricity" "co2base") as [B|e];
      cbn in Ha |- *; [|done].
    injection Ha as <-. by rewrite Hfresh.
  - rewrite Ha. cbn. by rewrite Hfresh.
Qed.

(** C1 (amended). For a token that contains "Co2L", on a network without a
    CO2 limit yet: when the longest decimal number that ends the token reads
    as [f], the constraint "CO2Limit" is added with constant
    f * co2base * Nyears; when no decimal number ends the token, it is added
    with constant co2limit * Nyears: the configured limit is an annual one
    and is scaled by the number of years as well. *)
Theorem C1_co2limit_constant (cfg : Config) (e : gmap string Q) (n : Network)
        (Nyears : Q) (o : string) :
  PyStr.contains "Co2L" o = true →
  global_constraints n !! "CO2Limit" = None →
  electricity cfg = Some e →
  (∀ (m : string) (f B : Q),
      trailing_decimal o m → PyFloat.float m = Ok f → e !! "co2base" = Some B →
      co2l_step cfg Nyears o n
      = Ok (with_global_constraints
              (<["CO2Limit" := GlobalConstraint.mk "primary_energy" "co2_emissions"
                                 "<=" (Num (f * B * Nyears))]>
                 (global_constraints n)) n))
  ∧ (∀ L : Q,
        no_trailing_decimal o → e !! "co2limit" = Some L →
        co2l_step cfg Nyears o n
        = Ok (with_global_constraints
                (<["CO2Limit" := GlobalConstraint.mk "primary_energy" "co2_emissions"
                                   "<=" (Num (L * Nyears))]>
                   (global_constraints n)) n)).
Proof.
  intros Ho Hfresh He. unfold co2l_step. rewrite Ho. split.
  - intros m f B Hm Hf HB. apply Suffix.findall_trailing in Hm. rewrite Hm, Hf.
    etransitivity; [|apply (add_co2limit_fresh cfg n Nyears (Some f) (f * B))].
    + reflexivity.
    + done.
    + unfold getitem. by rewrite He, HB.
  - intros L Hno HL. apply Suffix.findall_none in Hno. rewrite Hno.
    apply add_co2limit_fresh; [done|].
    unfold getitem. by rewrite He, HL.
Qed.

Lemma C1_co2limit_constant_witness :
  ∃ f : Q,
    f == 0.5 ∧
    co2l_step Sample.cfg 2 "Co2L0.5" Sample.net
    = Ok (with_global_constraints
            (<["CO2Limit" := GlobalConstraint.mk "primary_energy" "co2_emissions"
                               "<=" (Num (f * 1000 * 2))]>
               (global_constraints Sample.net)) Sample.net).
Proof.
  eexists. split; cycle 1.
  - refine (proj1 (C1_co2limit_constant Sample.cfg _ Sample.net 2 "Co2L0.5" _ _ _)
                  "0.5" _ 1000 _ _ _).
    + reflexivity.
    + reflexivity.
    + reflexivity.
    + apply Suffix.findall_trailing. reflexivity.
    + reflexivity.
    + reflexivity.
  - reflexivity.
Defined.

(** C1, as stated, fails: with co2limit = 100 configured and snapshots that
    weigh two years, the token "Co2L" adds the constant 200, not 100. *)
Lemma C1_unscaled_limit_counterexample :
  getitem (electricity Sample.cfg) "electricity" "co2limit" = Ok 100 ∧
  Nyears_of Sample.net == 2 ∧
  ∃ (n' : Network) (c : GlobalConstraint.t),
    co2l_step Sample.cfg (Nyears_of Sample.net) "Co2L" Sample.net = Ok n' ∧
    global_constraints n' !! "CO2Limit" = Some c ∧
    F.eq (GlobalConstraint.constant c) (Num 200) ∧
    ¬ F.eq (GlobalConstraint.constant c) (Num 100).
Proof.
  split; [reflexivity|]. split; [reflexivity|].
  eexists _, _. split; [reflexivity|]. split; [reflexivity|].
  split; [reflexivity|]. cbn. intros H. discriminate H.
Qed.

(** ** The capacity ceilings *)

Lemma clip_upper_inf (x : fnum) : F.clip_upper PInf x = x.
Proof. by destruct x. Qed.

(** Without the key that the lines ceiling is read under, no line
    changes. *)
Lemma set_line_nom_max_lines_untouched cfg (ls : gmap string fnum) (n n' : Network) :
  cfg_lines cfg = Some ls → ls !! "s_nom_max," = None →
  set_line_nom_max cfg n = Ok n' → lines n' = lines n.
Proof.
  intros Hl Hk. unfold set_line_nom_max, get_default. rewrite Hl, Hk. cbn.
  destruct (cfg_links cfg) as [lk|]; cbn; [|done].
  intros [= <-]. cbn. apply map_eq. intros k. rewrite lookup_fmap.
  destruct (lines n !! k) as [l|]; cbn; [|done].
  change (Some (Line.set_s_nom_max (F.clip_upper PInf (Line.s_nom_max l)) l)
          = Some l).
  rewrite clip_upper_inf. by destruct l.
Qed.

(** C2. The ceiling of the lines is looked up under "s_nom_max," (with a
    comma), so a configured [s_nom_max] is never read: with the bound 500
    configured, the line L1 keeps its ceiling of 2000, while the link K1 is
    clipped from 900 to the configured 800. *)
Theorem C2_lines_ceiling_ignored :
  cfg_lines Sample.cfg = Some {[ "s_nom_max" := Num 500 ]} ∧
  cfg_links Sample.cfg = Some {[ "p_nom_max" := Num 800 ]} ∧
  ∃ (n' : Network) (l : Line.t) (k : Link.t),
    set_line_nom_max Sample.cfg Sample.net = Ok n' ∧
    lines n' !! "L1" = Some l ∧ Line.s_nom_max l = Num 2000 ∧
    F.leb (Line.s_nom_max l) (Num 500) = false ∧
    links n' !! "K1" = Some k ∧ Link.p_nom_max k = Num 800.
Proof.
  split; [reflexivity|]. split; [reflexivity|].
  eexists _, _, _. split; [reflexivity|].
  split; [reflexivity|]. split; [reflexivity|].
  split; [reflexivity|]. split; reflexivity.
Qed.

(** ** Autarky *)

Lemma mremove_lookup {A} (names : gset string) (m : gmap string A) (k : string) :
  filter (fun kv : string * A => kv.1 ∉ names) m !! k
  = if decide (k ∈ names) then None else m !! k.
Proof.
  destruct (decide (k ∈ names)) as [Hin|Hout].
  - apply map_lookup_filter_None. right. intros x _ Hx. by apply Hx.
  - destruct (m !! k) as [x|] eqn:E.
    + apply map_lookup_filter_Some. done.
    + apply map_lookup_filter_None. by left.
Qed.

Lemma dom_filter_lookup {A} (P : A → bool) (m : gmap string A) (k : string) (x : A) :
  m !! k = Some x →
  k ∈ dom (filter (fun kv : string * A => P kv.2 = true) m) ↔ P x = true.
Proof.
  intros Hk. rewrite elem_of_dom. unfold is_Some. split.
  - intros [y Hy]. apply map_lookup_filter_Some in Hy as [Hy HP].
    cbn in HP. congruence.
  - intros HP. exists x. apply map_lookup_filter_Some. done.
Qed.

Lemma enforce_autarky_all (n : Network) :
  lines (enforce_autarky n false) = ∅ ∧ links (enforce_autarky n false) = ∅.
Proof.
  unfold enforce_autarky, mremove_links, mremove_lines. cbn. split.
  - apply map_eq. intros k. rewrite mremove_lookup, lookup_empty.
    destruct (decide (k ∈ dom (lines n))) as [|Hout]; [done|].
    by apply not_elem_of_dom.
  - apply map_eq. intros k. rewrite mremove_lookup, lookup_empty.
    destruct (decide (k ∈ dom (links n))) as [|Hout]; [done|].
    by apply not_elem_of_dom.
Qed.

Lemma enforce_autarky_lines (n : Network) (k : string) :
  lines (enforce_autarky n true) !! k
  = l ← lines n !! k; if line_crossborder n l then None else Some l.
Proof.
  unfold enforce_autarky, mremove_links, mremove_lines. cbn.
  rewrite mremove_lookup.
  destruct (lines n !! k) as [l|] eqn:E; cbn.
  - pose proof (dom_filter_lookup (line_crossborder n) (lines n) k l E) as Hd.
    destruct (line_crossborder n l); case_decide as Hin; try done.
    + exfalso. apply Hin, Hd. done.
    + apply Hd in Hin. done.
  - case_decide; done.
Qed.

Lemma enforce_autarky_links (n : Network) (k : string) :
  links (enforce_autarky n true) !! k
  = l ← links n !! k; if link_crossborder n l then None else Some l.
Proof.
  unfold enforce_autarky, mremove_links, mremove_lines. cbn.
  rewrite mremove_lookup.
  destruct (links n !! k) as [l|] eqn:E; cbn.
  - pose proof (dom_filter_lookup (link_crossborder n) (links n) k l E) as Hd.
    destruct (link_crossborder n l); case_decide as Hin; try done.
    + exfalso. apply Hin, Hd. done.
    + apply Hd in Hin. done.
  - case_decide; done.
Qed.

Lemma crossborder_countries (n : Network) (b0 b1 : string) (x0 x1 : Bus.t) :
  buses n !! b0 = Some x0 → buses n !! b1 = Some x1 →
  cell_ne (country_of n b0) (country_of n b1)
  = negb (bool_decide (Bus.country x0 = Bus.country x1)).
Proof.
  intros H0 H1. unfold country_of. rewrite H0, H1. cbn. f_equal.
  destruct (String.eqb_spec (Bus.country x0) (Bus.country x1)) as [E|E].
  - by rewrite bool_decide_eq_true_2.
  - by rewrite bool_decide_eq_false_2.
Qed.

(** C7. With the token "ATK" among the options no line and no link is left.
    With "ATKc" and without "ATK", a line or link between two buses of the
    network is removed when the countries of the buses differ and stays, as
    it was, when they are the same; nothing is added. *)
Theorem C7_autarky (n : Network) (opts : list string) :
  ("ATK" ∈ opts →
   lines (autarky_step opts n) = ∅ ∧ links (autarky_step opts n) = ∅)
  ∧ ("ATK" ∉ opts → "ATKc" ∈ opts →
     (∀ (k : string) (l : Line.t) (x0 x1 : Bus.t),
         lines n !! k = Some l →
         buses n !! Line.bus0 l = Some x0 → buses n !! Line.bus1 l = Some x1 →
         lines (autarky_step opts n) !! k
         = if decide (Bus.country x0 = Bus.country x1) then Some l else None)
     ∧ (∀ (k : string) (l : Link.t) (x0 x1 : Bus.t),
           links n !! k = Some l →
           buses n !! Link.bus0 l = Some x0 → buses n !! Link.bus1 l = Some x1 →
           links (autarky_step opts n) !! k
           = if decide (Bus.country x0 = Bus.country x1) then Some l else None)
     ∧ lines (autarky_step opts n) ⊆ lines n
     ∧ links (autarky_step opts n) ⊆ links n).
Proof.
  unfold autarky_step. split.
  - intros Hatk. rewrite bool_decide_eq_true_2 by done. apply enforce_autarky_all.
  - intros Hno Hc. rewrite bool_decide_eq_false_2 by done.
    rewrite bool_decide_eq_true_2 by done. split_and!.
    + intros k l x0 x1 Hl H0 H1. rewrite enforce_autarky_lines, Hl. cbn.
      unfold line_crossborder. rewrite (crossborder_countries n _ _ x0 x1 H0 H1).
      case_decide; [by rewrite bool_decide_eq_true_2|by rewrite bool_decide_eq_false_2].
    + intros k l x0 x1 Hl H0 H1. rewrite enforce_autarky_links, Hl. cbn.
      unfold link_crossborder. rewrite (crossborder_countries n _ _ x0 x1 H0 H1).
      case_decide; [by rewrite bool_decide_eq_true_2|by rewrite bool_decide_eq_false_2].
    + apply map_subseteq_spec. intros k l. rewrite enforce_autarky_lines.
      destruct (lines n !! k) as [l0|]; cbn; [|done].
      destruct (line_crossborder n l0); [done|]. done.
    + apply map_subseteq_spec. intros k l. rewrite enforce_autarky_links.
      destruct (links n !! k) as [l0|]; cbn; [|done].
      destruct (link_crossborder n l0); [done|]. done.
Qed.

Lemma C7_autarky_witness :
  (lines (autarky_step ["24H"; "ATK"] Sample.net) = ∅ ∧
   links (autarky_step ["24H"; "ATK"] Sample.net) = ∅)
  ∧ lines (autarky_step ["ATKc"] Sample.net) !! "L1"
    = Some (Sample.line "DE0" "DE1" 10)
  ∧ lines (autarky_step ["ATKc"] Sample.net) !! "L2" = None
  ∧ links (autarky_step ["ATKc"] Sample.net) !! "K1" = None
  ∧ links (autarky_step ["ATKc"] Sample.net) !! "K2"
    = Some (Sample.link "DE0" "DE1" "gas pipeline").
Proof.
  pose proof (C7_autarky Sample.net ["24H"; "ATK"]) as [Hall _].
  pose proof (C7_autarky Sample.net ["ATKc"]) as [_ Hcross].
  split; [apply Hall; apply (bool_decide_unpack _); vm_compute; reflexivity|].
  destruct Hcross as (Hlines & Hlinks & _ & _);
    [apply (bool_decide_unpack _); vm_compute; reflexivity ..|].
  split_and!.
  - apply (Hlines "L1" _ (Bus.mk 380 "DE") (Bus.mk 380 "DE")); reflexivity.
  - apply (Hlines "L2" (Sample.line "DE0" "FR0" 20)
                  (Bus.mk 380 "DE") (Bus.mk 380 "FR")); reflexivity.
  - apply (Hlinks "K1" (Sample.link "DE1" "FR0" "DC")
                  (Bus.mk 380 "DE") (Bus.mk 380 "FR")); reflexivity.
  - apply (Hlinks "K2" _ (Bus.mk 380 "DE") (Bus.mk 380 "DE")); reflexivity.
Defined.


(** ** Resampling keeps the total weight *)

Module ResampleFacts.
Import Resample.

Lemma qsum_cons (x : Q) (l : list Q) : qsum (x :: l) = x + qsum l.
Proof. reflexivity. Qed.

Lemma qsum_ext {A} (f g : A → Q) (ks : list A) :
  (∀ k, f k == g k) → qsum (f <$> ks) == qsum (g <$> ks).
Proof.
  intros Hfg. induction ks as [|k ks IH]; [reflexivity|].
  rewrite !fmap_cons, !qsum_cons, IH, Hfg. reflexivity.
Qed.

Lemma qsum_add {A} (f g : A → Q) (ks : list A) :
  qsum ((fun k => f k + g k) <$> ks) == qsum (f <$> ks) + qsum (g <$> ks).
Proof.
  induction ks as [|k ks IH]; [reflexivity|].
  rewrite !fmap_cons, !qsum_cons, IH. ring.
Qed.

Lemma qsum_zero {A} (ks : list A) : qsum ((fun _ => 0) <$> ks) == 0.
Proof.
  induction ks as [|k ks IH]; [reflexivity|].
  rewrite fmap_cons, qsum_cons, IH. ring.
Qed.

(** A weight that is counted in one bin only is counted once. *)
Lemma qsum_single (x : Z) (v : Q) (ks : list Z) :
  NoDup ks → x ∈ ks →
  qsum ((fun k => if decide (x = k) then v else 0) <$> ks) == v.
Proof.
  induction 1 as [|k ks Hk Hnd IH]; intros Hx.
  - by apply elem_of_nil in Hx.
  - rewrite fmap_cons, qsum_cons. destruct (decide (x = k)) as [->|Hne].
    + assert (E : qsum ((fun k' => if decide (k = k') then v else 0) <$> ks) == 0).
      { clear IH Hx Hnd. induction ks as [|k' ks IH]; [reflexivity|].
        rewrite fmap_cons, qsum_cons.
        apply not_elem_of_cons in Hk as [Hne Hk].
        rewrite (IH Hk). destruct (decide (k = k')); [done|]. ring. }
      rewrite E. ring.
    + apply elem_of_cons in Hx as [?|Hx]; [done|]. rewrite (IH Hx). ring.
Qed.

Lemma in_bin_cons {A} (origin w k t : Z) (v : A) (s : list (Z * A)) :
  in_bin origin w k ((t, v) :: s)
  = if decide (bin origin w t = k) then v :: in_bin origin w k s
    else in_bin origin w k s.
Proof.
  unfold in_bin. rewrite filter_cons. cbn. by destruct (decide (bin origin w t = k)).
Qed.

(** The sums of the bins add up to the sum of the column, when every time
    stamp falls into one of the bins. *)
Lemma bins_total (origin w : Z) (ks : list Z) (s : list (Z * Q)) :
  NoDup ks → (∀ p, p ∈ s → bin origin w p.1 ∈ ks) →
  qsum ((fun k => qsum (in_bin origin w k s)) <$> ks) == qsum (snd <$> s).
Proof.
  intros Hnd. induction s as [|[t v] s IH]; intros Hin.
  - apply qsum_zero.
  - rewrite (qsum_ext _ (fun k => (if decide (bin origin w t = k) then v else 0)
                                  + qsum (in_bin origin w k s))).
    + rewrite qsum_add, qsum_single, IH.
      * reflexivity.
      * intros p Hp. apply Hin. by right.
      * done.
      * apply (Hin (t, v)). by left.
    + intros k. rewrite in_bin_cons.
      destruct (decide (bin origin w t = k)); rewrite ?qsum_cons; ring.
Qed.

Lemma fold_min_le (t0 : Z) (l : list Z) (t : Z) :
  t ∈ t0 :: l → (foldr Z.min t0 l ≤ t)%Z.
Proof.
  induction l as [|x l IH]; intros Ht.
  - apply list_elem_of_singleton in Ht. cbn. lia.
  - cbn [foldr]. apply elem_of_cons in Ht as [Ht|Ht].
    + assert (foldr Z.min t0 l ≤ t)%Z by (apply IH; subst; by left). lia.
    + apply elem_of_cons in Ht as [Ht|Ht]; [lia|].
      assert (foldr Z.min t0 l ≤ t)%Z by (apply IH; by right). lia.
Qed.

Lemma fold_max_ge (t0 : Z) (l : list Z) (t : Z) :
  t ∈ t0 :: l → (t ≤ foldr Z.max t0 l)%Z.
Proof.
  induction l as [|x l IH]; intros Ht.
  - apply list_elem_of_singleton in Ht. cbn. lia.
  - cbn [foldr]. apply elem_of_cons in Ht as [Ht|Ht].
    + assert (t ≤ foldr Z.max t0 l)%Z by (apply IH; subst; by left). lia.
    + apply elem_of_cons in Ht as [Ht|Ht]; [lia|].
      assert (t ≤ foldr Z.max t0 l)%Z by (apply IH; by right). lia.
Qed.

Lemma bin_mono (origin w a b : Z) :
  (0 < w)%Z → (a ≤ b)%Z → (bin origin w a ≤ bin origin w b)%Z.
Proof. intros Hw Hab. unfold bin. apply Z.div_le_mono; lia. Qed.

Lemma resample_values {A B} (agg : list A → B) (w : Z) (s : list (Z * A)) :
  ∃ (origin : Z) (ks : list Z),
    NoDup ks ∧
    ((0 < w)%Z → ∀ p, p ∈ s → bin origin w p.1 ∈ ks) ∧
    resample agg w s
    = (fun k => ((origin + k * w)%Z, agg (in_bin origin w k s))) <$> ks.
Proof.
  destruct s as [|[t0 v0] rest].
  - exists 0%Z, []. split_and!; [constructor| |done].
    intros _ p Hp. by apply elem_of_nil in Hp.
  - cbn [resample].
    set (lo := foldr Z.min t0 (fst <$> rest)).
    set (hi := foldr Z.max t0 (fst <$> rest)).
    set (origin := (day * (lo / day))%Z).
    exists origin, (seqZ (bin origin w lo) (bin origin w hi - bin origin w lo + 1)).
    split_and!; [apply NoDup_seqZ| |done].
    intros Hw p Hp.
    assert (Ht : p.1 ∈ t0 :: (fst <$> rest)).
    { change (t0 :: (fst <$> rest)) with (fst <$> ((t0, v0) :: rest)).
      by apply list_elem_of_fmap_2. }
    pose proof (fold_min_le _ _ _ Ht). pose proof (fold_max_ge _ _ _ Ht).
    pose proof (bin_mono origin w lo p.1 Hw). pose proof (bin_mono origin w p.1 hi Hw).
    apply elem_of_seqZ. lia.
Qed.

Lemma resample_sum_total (w : Z) (s : list (Z * Q)) :
  (0 < w)%Z → qsum (snd <$> Resample.sum w s) == qsum (snd <$> s).
Proof.
  intros Hw. unfold Resample.sum.
  destruct (resample_values qsum w s) as (origin & ks & Hnd & Hin & ->).
  rewrite <- list_fmap_compose. apply bins_total; auto.
Qed.

Lemma parse_offset_positive (offset : string) (w : Z) :
  parse_offset offset = Ok w → (0 < w)%Z.
Proof.
  unfold parse_offset.
  destruct (PyFloat.span_digits offset) as [[|d ds] rest]; [done|].
  case_bool_decide; [|done].
  destruct (0 <? PyFloat.digits_val (d :: ds))%Z eqn:E; [|done].
  intros [= <-]. apply Z.ltb_lt in E. unfold hour. lia.
Qed.

End ResampleFacts.



Example parse_offset_24h :
  Resample.parse_offset "24H" = Ok (24 * Resample.hour)%Z.
Proof. reflexivity. Qed.

Example resample_sample_weights :
  Resample.sum (2 * Resample.hour) (snapshot_weightings Sample.net)
  = [(0%Z, 5840 + (5840 + 0)); ((2 * Resample.hour)%Z, 5840 + 0)].
Proof. reflexivity. Qed.


(** ** The transmission limit *)

Section TransmissionLimit.

Variable line_cost : Q → string → Line.t → Q.
Variable dc_link_cost : Q → string → Link.t → Q.

Lemma line_s_nom_cost (n : Network) (v : Q) (l : Line.t) :
  line_s_nom n (Line.set_capital_cost v l) = line_s_nom n l.
Proof. reflexivity. Qed.

Lemma update_lines (Ny : Q) (n : Network) (k : string) :
  lines (update_transmission_costs line_cost dc_link_cost Ny n) !! k
  = (fun l => Line.set_capital_cost (line_cost Ny k l) l) <$> lines n !! k.
Proof.
  unfold update_transmission_costs. cbn.
  rewrite map_lookup_imap. by destruct (lines n !! k).
Qed.

Lemma update_links (Ny : Q) (n : Network) (k : string) :
  links (update_transmission_costs line_cost dc_link_cost Ny n) !! k
  = (fun l => if is_dc l then Link.set_capital_cost (dc_link_cost Ny k l) l else l)
      <$> links n !! k.
Proof.
  unfold update_transmission_costs. cbn.
  rewrite map_lookup_imap. by destruct (links n !! k).
Qed.

Lemma update_global_constraints (Ny : Q) (n : Network) :
  global_constraints (update_transmission_costs line_cost dc_link_cost Ny n) = global_constraints n.
Proof. reflexivity. Qed.

Lemma make_extendable_spec (Ny : Q) (n : Network) :
  extendable_from n (make_extendable n (update_transmission_costs line_cost dc_link_cost Ny n)).
Proof.
  unfold extendable_from, make_extendable. cbn [lines links with_lines with_links].
  split_and!.
  - intros k l Hl. rewrite lookup_fmap, update_lines, Hl. cbn.
    eexists. split; [reflexivity|]. done.
  - intros k l Hl Hdc. rewrite lookup_fmap, update_links, Hl. cbn.
    assert (Hd : is_dc l = true) by (by apply bool_decide_eq_true_2).
    rewrite Hd.
    assert (Hd' : is_dc (Link.set_capital_cost (dc_link_cost Ny k l) l) = true)
      by (by apply bool_decide_eq_true_2).
    rewrite Hd'.
    eexists. split; [reflexivity|]. done.
  - apply set_eq. intros k. rewrite !elem_of_dom, lookup_fmap, update_lines.
    destruct (lines n !! k); cbn; split; intros [? ?]; eauto.
  - apply set_eq. intros k. rewrite !elem_of_dom, lookup_fmap, update_links.
    destruct (links n !! k); cbn; split; intros [? ?]; eauto.
Qed.

Lemma add_global_constraint_fresh (name : string) (c : GlobalConstraint.t)
      (n : Network) (base : gmap string GlobalConstraint.t) :
  global_constraints n = base → base !! name = None →
  add_global_constraint name c n
  = Ok (with_global_constraints (<[name := c]> base) n).
Proof. intros <- H. unfold add_global_constraint. by rewrite H. Qed.

Lemma set_transmission_limit_opt (n : Network) (ll_type : string) (Ny : Q) :
  set_transmission_limit line_cost dc_link_cost n ll_type "opt" Ny
  = Ok (make_extendable n (update_transmission_costs line_cost dc_link_cost Ny n)).
Proof. reflexivity. Qed.

Lemma set_transmission_limit_number (n : Network) (ll_type factor : string)
      (Ny F : Q) :
  factor ≠ "opt" → PyFloat.float factor = Ok F →
  set_transmission_limit line_cost dc_link_cost n ll_type factor Ny
  = add_global_constraint ("l" ++ ll_type ++ "_limit")
      (limit_constraint ll_type (F.mul (Num F) (reference n ll_type)))
      (if negb (Qle_bool F 1.0) then make_extendable n (update_transmission_costs line_cost dc_link_cost Ny n)
       else update_transmission_costs line_cost dc_link_cost Ny n).
Proof.
  intros Hne HF. unfold set_transmission_limit, limit_constraint.
  rewrite (bool_decide_eq_false_2 _ Hne), HF.
  destruct (bool_decide (ll_type = "c")); reflexivity.
Qed.


End TransmissionLimit.

Example reference_sample_cost : F.eq (reference Sample.net "c") (Num 33500).
Proof. vm_compute. reflexivity. Qed.

Example reference_sample_volume : F.eq (reference Sample.net "v") (Num 225000).
Proof. vm_compute. reflexivity. Qed.


(** ** [float] on what [float_regex] matched *)

Module FloatFacts.
Import StrFacts.

Lemma span_digits_app (a r : string) :
  Re.all_in Re.Digit a = true →
  PyFloat.span_digits (a ++ r)
  = ((digs a ++ (PyFloat.span_digits r).1)%list, (PyFloat.span_digits r).2).
Proof.
  induction a as [|c a IH]; cbn [Re.all_in digs].
  - intros _. cbn. by destruct (PyFloat.span_digits r).
  - intros [Hc Ha]%andb_true_iff. cbn in Hc.
    cbn [String.append PyFloat.span_digits]. rewrite Hc, (IH Ha). reflexivity.
Qed.

Lemma span_digits_all (d : string) :
  Re.all_in Re.Digit d = true → PyFloat.span_digits d = (digs d, "").
Proof.
  intros Hd. rewrite <- (append_nil_r d) at 1.
  rewrite (span_digits_app d "" Hd). cbn. by rewrite app_nil_r.
Qed.

(** A digit or a point is no blank and no sign. *)
Lemma head_plain (c : ascii) (s : string) :
  PyStr.is_digit c = true ∨ c = "."%char →
  PyFloat.sign (PyFloat.lstrip (String c s)) = (false, String c s).
Proof.
  intros [Hc | ->]; [|reflexivity].
  destruct c as [[] [] [] [] [] [] [] []]; try discriminate Hc; reflexivity.
Qed.

Lemma digs_nonempty (d : string) : d ≠ "" → digs d ≠ [].
Proof. by destruct d. Qed.

Lemma parse_digits (d : string) :
  Re.all_in Re.Digit d = true → d ≠ "" →
  PyFloat.parse d
  = Some ((PyFloat.digits_val (digs d) # 1) * PyFloat.pow10 (0 - 0)).
Proof.
  intros Hd Hne. destruct d as [|c d]; [done|].
  unfold PyFloat.parse. rewrite head_plain.
  - rewrite (span_digits_all _ Hd). cbn [digs]. rewrite app_nil_r. reflexivity.
  - left. cbn in Hd. by apply andb_true_iff in Hd as [? _].
Qed.

Lemma parse_point (ip fp : string) :
  Re.all_in Re.Digit ip = true → Re.all_in Re.Digit fp = true → fp ≠ "" →
  PyFloat.parse (ip ++ "." ++ fp)
  = Some ((PyFloat.digits_val (digs ip ++ digs fp) # 1)
          * PyFloat.pow10 (0 - Z.of_nat (List.length (digs fp)))).
Proof.
  intros Hip Hfp Hne.
  assert (Hs : PyFloat.sign (PyFloat.lstrip (ip ++ "." ++ fp))
               = (false, ip ++ "." ++ fp)).
  { destruct ip as [|c ip]; [reflexivity|]. apply head_plain. left.
    cbn in Hip. by apply andb_true_iff in Hip as [? _]. }
  unfold PyFloat.parse. rewrite Hs, (span_digits_app ip _ Hip).
  change (PyFloat.span_digits ("." ++ fp)) with (([] : list Z), String "." fp).
  cbn [fst snd]. rewrite app_nil_r, (span_digits_all _ Hfp).
  destruct (digs ip ++ digs fp)%list as [|x l] eqn:E; [|reflexivity].
  apply app_eq_nil in E as [_ E]. by apply digs_nonempty in E.
Qed.

(** [float] never raises on a decimal number. *)
Lemma float_decimal (m : string) : decimal m → ∃ f : Q, PyFloat.float m = Ok f.
Proof.
  intros (ip & fp & Hip & Hfp & Hne & [-> | ->]); unfold PyFloat.float.
  - rewrite parse_digits; [eauto| |].
    + by rewrite all_in_append, Hip, Hfp.
    + destruct ip; [done|discriminate].
  - rewrite parse_point by done. eauto.
Qed.

(** Every token has its value. *)
Lemma token_value_total (o : string) : ∃ v : option Q, token_value o v.
Proof.
  destruct (Re.findall_head float_regex o) as [m|] eqn:E.
  - apply Suffix.findall_trailing in E.
    assert (Hm : decimal m) by (by destruct E as (? & ? & _ & _ & ? & _)).
    destruct (float_decimal m Hm) as [f Hf].
    exists (Some f). right. eauto.
  - apply Suffix.findall_none in E. exists None. by left.
Qed.

End FloatFacts.

(** ** The three tests on one token *)

Lemma token_value_findall (o : string) (v : option Q) :
  token_value o v →
  match Re.findall_head float_regex o with
  | Some m => ∃ f : Q, PyFloat.float m = Ok f ∧ v = Some f
  | None => v = None
  end.
Proof.
  intros [[Hno ->] | (m & f & Hm & Hf & ->)].
  - apply Suffix.findall_none in Hno. by rewrite Hno.
  - apply Suffix.findall_trailing in Hm. rewrite Hm. eauto.
Qed.

Lemma token_value_unique (o : string) (v v' : option Q) :
  token_value o v → token_value o v' → v = v'.
Proof.
  intros H%token_value_findall H'%token_value_findall.
  destruct (Re.findall_head float_regex o) as [m|].
  - destruct H as (f & Hf & ->), H' as (f' & Hf' & ->). congruence.
  - congruence.
Qed.

Lemma co2l_step_value cfg (Ny : Q) (o : string) (n : Network) (v : option Q) :
  token_value o v →
  co2l_step cfg Ny o n
  = if PyStr.contains "Co2L" o then add_co2limit cfg n Ny v else Ok n.
Proof.
  intros H%token_value_findall. unfold co2l_step.
  destruct (PyStr.contains "Co2L" o); [|done].
  destruct (Re.findall_head float_regex o) as [m|].
  - destruct H as (f & -> & ->). reflexivity.
  - by rewrite H.
Qed.

Lemma sc_step_value (o : string) (n : Network) (v : option Q) :
  token_value o v →
  sc_step o n
  = Ok (if PyStr.contains "SC" o then set_lines_s_max_pu (default 1 v) n else n).
Proof.
  intros H%token_value_findall. unfold sc_step.
  destruct (PyStr.contains "SC" o); [|done].
  destruct (Re.findall_head float_regex o) as [m|].
  - destruct H as (f & -> & ->). reflexivity.
  - by rewrite H.
Qed.

Lemma ep_step_value cfg (o : string) (n : Network) (v : option Q) :
  token_value o v →
  ep_step cfg o n
  = if PyStr.contains "Ep" o
    then add_emission_prices cfg n
           ((fun x => ({[ "co2" := x ]} : gmap string Q)) <$> v) false
    else Ok n.
Proof.
  intros H%token_value_findall. unfold ep_step.
  destruct (PyStr.contains "Ep" o); [|done].
  destruct (Re.findall_head float_regex o) as [m|].
  - destruct H as (f & -> & ->). reflexivity.
  - by rewrite H.
Qed.

(** C10. One token goes through the three tests of the loop body, each a
    test for a substring: for a token with the value [v], the body is the
    CO2 limit (when the token contains "Co2L"), then the security margin
    (when it contains "SC"), then the emission prices (when it contains
    "Ep"), each on the network the one before left; a token with "SC" and
    "Ep" and without "Co2L" has both its margin set and its prices added. *)
Theorem C10_tests_on_one_token cfg (Nyears : Q) (o : string) (n : Network)
        (v : option Q) :
  token_value o v →
  option_step cfg Nyears o n
  = (n1 ← (if PyStr.contains "Co2L" o then add_co2limit cfg n Nyears v else Ok n);
     n2 ← Ok (if PyStr.contains "SC" o
              then set_lines_s_max_pu (default 1 v) n1 else n1);
     if PyStr.contains "Ep" o
     then add_emission_prices cfg n2
            ((fun x => ({[ "co2" := x ]} : gmap string Q)) <$> v) false
     else Ok n2)
  ∧ (PyStr.contains "Co2L" o = false → PyStr.contains "SC" o = true →
     PyStr.contains "Ep" o = true →
     option_step cfg Nyears o n
     = add_emission_prices cfg (set_lines_s_max_pu (default 1 v) n)
         ((fun x => ({[ "co2" := x ]} : gmap string Q)) <$> v) false).
Proof.
  intros Hv.
  assert (E : option_step cfg Nyears o n
              = (n1 ← (if PyStr.contains "Co2L" o
                       then add_co2limit cfg n Nyears v else Ok n);
                 n2 ← Ok (if PyStr.contains "SC" o
                          then set_lines_s_max_pu (default 1 v) n1 else n1);
                 if PyStr.contains "Ep" o
                 then add_emission_prices cfg n2
                        ((fun x => ({[ "co2" := x ]} : gmap string Q)) <$> v) false
                 else Ok n2)).
  { unfold option_step. rewrite (co2l_step_value cfg Nyears o n v Hv).
    destruct (if PyStr.contains "Co2L" o then add_co2limit cfg n Nyears v else Ok n)
      as [n1|e]; [|reflexivity].
    cbn [mbind result_bind]. rewrite (sc_step_value o n1 v Hv).
    apply (ep_step_value cfg o _ v Hv). }
  split; [exact E|].
  intros Hco2 Hsc Hep. rewrite E, Hco2, Hsc, Hep. reflexivity.
Qed.

Lemma C10_tests_on_one_token_witness :
  ∃ f : Q,
    f == 0.7 ∧
    option_step Sample.cfg 2 "SCEp0.7" Sample.net
    = add_emission_prices Sample.cfg (set_lines_s_max_pu f Sample.net)
        (Some {[ "co2" := f ]}) false.
Proof.
  eexists. split; cycle 1.
  - refine (proj2 (C10_tests_on_one_token Sample.cfg 2 "SCEp0.7" Sample.net
                                          (Some _) _) _ _ _).
    + right. exists "0.7". eexists. split; [|split; reflexivity].
      apply Suffix.findall_trailing. reflexivity.
    + reflexivity.
    + reflexivity.
    + reflexivity.
  - reflexivity.
Defined.

(** C3 (amended). The number of a token is what [float] reads in the
    longest decimal number that ends the token; every token has exactly one
    value, a number or none.  A token with "Co2L" adds the CO2 limit with
    that number as factor, or the configured [co2limit] when it has none; a
    token with "SC" sets the margin to that number, or to 1 when it has
    none; a token with "Ep" adds the emission prices with that number as the
    price of CO2, or the configured [emission_prices] when it has none. *)
Theorem C3_number_of_token cfg (Nyears : Q) (o : string) (n : Network) :
  (∃ v : option Q, token_value o v ∧ ∀ v', token_value o v' → v' = v)
  ∧ (∀ v : option Q,
        token_value o v →
        (PyStr.contains "Co2L" o = true →
         co2l_step cfg Nyears o n = add_co2limit cfg n Nyears v)
        ∧ (PyStr.contains "SC" o = true →
           sc_step o n = Ok (set_lines_s_max_pu (default 1 v) n))
        ∧ (PyStr.contains "Ep" o = true →
           ep_step cfg o n
           = add_emission_prices cfg n
               ((fun x => ({[ "co2" := x ]} : gmap string Q)) <$> v) false))
  ∧ add_co2limit cfg n Nyears None
    = (L ← getitem (electricity cfg) "electricity" "co2limit";
       add_global_constraint "CO2Limit"
         (GlobalConstraint.mk "primary_energy" "co2_emissions" "<="
                              (Num (L * Nyears))) n)
  ∧ add_emission_prices cfg n None false
    = (prices ← getitem (costs cfg) "costs" "emission_prices";
       add_emission_prices cfg n (Some prices) false).
Proof.
  split_and!.
  - destruct (FloatFacts.token_value_total o) as [v Hv].
    exists v. split; [done|]. intros v' Hv'. by eapply token_value_unique.
  - intros v Hv. split_and!.
    + intros H. by rewrite (co2l_step_value cfg Nyears o n v Hv), H.
    + intros H. by rewrite (sc_step_value o n v Hv), H.
    + intros H. by rewrite (ep_step_value cfg o n v Hv), H.
  - reflexivity.
  - unfold add_emission_prices.
    by destruct (getitem (costs cfg) "costs" "emission_prices").
Qed.

Lemma C3_number_of_token_witness :
  (∃ f : Q,
      f == 0.05 ∧
      co2l_step Sample.cfg 2 "Co2L0.05" Sample.net
      = add_co2limit Sample.cfg Sample.net 2 (Some f))
  ∧ sc_step "0.7SC" Sample.net = Ok (set_lines_s_max_pu 1 Sample.net).
Proof.
  split.
  - eexists. split; cycle 1.
    + refine (proj1 (proj1 (proj2 (C3_number_of_token Sample.cfg 2 "Co2L0.05"
                                                      Sample.net))
                           (Some _) _) _).
      * right. exists "0.05". eexists. split; [|split; reflexivity].
        apply Suffix.findall_trailing. reflexivity.
      * reflexivity.
    + reflexivity.
  - refine (proj1 (proj2 (proj1 (proj2 (C3_number_of_token Sample.cfg 2 "0.7SC"
                                                           Sample.net))
                                None _)) _).
    + left. split; [|reflexivity]. apply Suffix.findall_none. reflexivity.
    + reflexivity.
Defined.

(** C3, as stated, fails: the first decimal number found in "0.7SC" is
    "0.7", and the token sets the margin to 1; the first decimal number
    found in "Co2L0.05" is the "2" of "Co2L", and the script reads
    "0.05". *)
Lemma C3_first_number_counterexample :
  (Re.findall_head unanchored_float_regex "0.7SC" = Some "0.7" ∧
   PyStr.contains "SC" "0.7SC" = true ∧
   ∃ (n' : Network) (l : Line.t),
     sc_step "0.7SC" Sample.net = Ok n' ∧
     lines n' !! "L1" = Some l ∧
     Line.s_max_pu l == 1 ∧ ¬ Line.s_max_pu l == 0.7)
  ∧ Re.findall_head unanchored_float_regex "Co2L0.05" = Some "2"
  ∧ Re.findall_head float_regex "Co2L0.05" = Some "0.05".
Proof.
  split; [|split; reflexivity].
  split; [reflexivity|]. split; [reflexivity|].
  eexists _, _. split; [reflexivity|]. split; [reflexivity|].
  split; [reflexivity|]. intros H. discriminate H.
Qed.


(** ** The scaling of capital costs *)

Lemma split_nonempty (sep : ascii) (s : string) :
  ∃ (w : string) (ws : list string), PyStr.split sep s = w :: ws.
Proof.
  induction s as [|c s (w & ws & IH)]; cbn; [eauto|].
  destruct (Ascii.eqb c sep); [eauto|]. rewrite IH. eauto.
Qed.

Lemma carrier_step_scale (n : Network) (o prefix ftext : string)
      (rest : list string) (f : Q) :
  PyStr.split "+" o = prefix :: ftext :: rest →
  PyStr.startswith_any prefix (suptechs n) = true →
  PyFloat.float ftext = Ok f →
  carrier_step o n
  = Ok (if bool_decide (prefix = "AC") then scale_lines f n
        else scale_carrier prefix f n).
Proof.
  intros Hs Hp Hf. unfold carrier_step. rewrite Hs. cbn [PyStr.item nth_error].
  cbn [mbind result_bind]. rewrite Hp. cbn [PyStr.item nth_error mbind result_bind].
  rewrite Hf. cbn [mbind result_bind]. by destruct (bool_decide (prefix = "AC")).
Qed.

Lemma carrier_step_skip (n : Network) (o : string) :
  PyStr.startswith_any (hd "" (PyStr.split "+" o)) (suptechs n) = false →
  carrier_step o n = Ok n.
Proof.
  intros Hp. unfold carrier_step.
  destruct (split_nonempty "+" o) as (w & ws & E). rewrite E in Hp |- *.
  cbn [PyStr.item nth_error mbind result_bind]. cbn in Hp. by rewrite Hp.
Qed.

Lemma scale_lines_twice (f : Q) (n : Network) :
  lines (scale_lines f (scale_lines f n))
  = scaled_line (fun c => c * f * f) <$> lines n.
Proof.
  unfold scale_lines. cbn [lines with_lines].
  rewrite <- map_fmap_compose. apply map_fmap_ext. by intros k [].
Qed.

Lemma scale_carrier_twice (carrier : string) (f : Q) (n : Network) :
  generators (scale_carrier carrier f (scale_carrier carrier f n))
  = scaled_generator carrier (fun c => c * f * f) <$> generators n
  ∧ links (scale_carrier carrier f (scale_carrier carrier f n))
    = scaled_link carrier (fun c => c * f * f) <$> links n
  ∧ storage_units (scale_carrier carrier f (scale_carrier carrier f n))
    = scaled_storage_unit carrier (fun c => c * f * f) <$> storage_units n.
Proof.
  unfold scale_carrier, str_contains.
  cbn [generators links storage_units with_generators with_links with_storage_units].
  split_and!; rewrite <- map_fmap_compose; apply map_fmap_ext; intros k x _; cbn.
  - unfold scaled_generator.
    destruct (PyStr.contains carrier (Generator.carrier x)) eqn:E; cbn; by rewrite E.
  - unfold scaled_link.
    destruct (PyStr.contains carrier (Link.carrier x)) eqn:E; cbn; by rewrite E.
  - unfold scaled_storage_unit.
    destruct (PyStr.contains carrier (StorageUnit.carrier x)) eqn:E; cbn; by rewrite E.
Qed.




(** ** Tokens that no test picks up *)

Section Ignored.

Variable line_cost : Q → string → Line.t → Q.
Variable dc_link_cost : Q → string → Link.t → Q.
Variable cfg : Config.

Lemma for_each_app (step : string → Network → result Network)
      (a b : list string) (n : Network) :
  for_each step (a ++ b)%list n = (n' ← for_each step a n; for_each step b n').
Proof.
  revert n. induction a as [|o a IH]; intros n; [reflexivity|].
  cbn [for_each app]. destruct (step o n) as [n'|e]; [|reflexivity]. apply IH.
Qed.

Lemma for_each_carriers (step : string → Network → result Network) :
  (∀ o n n', step o n = Ok n' → carriers n' = carriers n) →
  ∀ opts n n', for_each step opts n = Ok n' → carriers n' = carriers n.
Proof.
  intros Hstep opts. induction opts as [|o opts IH]; intros n n'; cbn [for_each].
  - by intros [= <-].
  - destruct (step o n) as [n1|e] eqn:E; [|done].
    intros H. apply IH in H. apply Hstep in E. congruence.
Qed.

Lemma add_co2limit_carriers (n n' : Network) (Ny : Q) (v : option Q) :
  add_co2limit cfg n Ny v = Ok n' → carriers n' = carriers n.
Proof.
  unfold add_co2limit, add_global_constraint.
  destruct v as [f|].
  - destruct (getitem (electricity cfg) "electricity" "co2base") as [B|]; [|done].
    cbn [mbind result_bind].
    destruct (global_constraints n !! "CO2Limit"); [done|]. by intros [= <-].
  - destruct (getitem (electricity cfg) "electricity" "co2limit") as [L|]; [|done].
    cbn [mbind result_bind].
    destruct (global_constraints n !! "CO2Limit"); [done|]. by intros [= <-].
Qed.

Lemma add_emission_prices_carriers (n n' : Network) (p : option (gmap string Q))
      (x : bool) :
  add_emission_prices cfg n p x = Ok n' → carriers n' = carriers n.
Proof.
  unfold add_emission_prices.
  destruct (match p with
            | Some p0 => Ok p0
            | None => getitem (costs cfg) "costs" "emission_prices"
            end) as [prices|]; [|done].
  cbn [mbind result_bind].
  destruct (if x then match prices !! "co2" with
                      | Some _ => Ok (delete "co2" prices)
                      | None => Raise (KeyError "co2")
                      end
            else Ok prices) as [prices'|]; [|done].
  cbn [mbind result_bind]. by intros [= <-].
Qed.

Lemma option_step_carriers (Ny : Q) (o : string) (n n' : Network) :
  option_step cfg Ny o n = Ok n' → carriers n' = carriers n.
Proof.
  destruct (FloatFacts.token_value_total o) as [v Hv].
  unfold option_step.
  rewrite (co2l_step_value cfg Ny o n v Hv).
  destruct (if PyStr.contains "Co2L" o then add_co2limit cfg n Ny v else Ok n)
    as [n1|] eqn:E1; [|done].
  cbn [mbind result_bind]. rewrite (sc_step_value o n1 v Hv).
  cbn [mbind result_bind]. rewrite (ep_step_value cfg o _ v Hv).
  intros E3.
  assert (H1 : carriers n1 = carriers n).
  { destruct (PyStr.contains "Co2L" o).
    - by eapply add_co2limit_carriers.
    - by injection E1 as <-. }
  rewrite <- H1.
  destruct (PyStr.contains "Ep" o).
  - apply add_emission_prices_carriers in E3. rewrite E3.
    by destruct (PyStr.contains "SC" o).
  - injection E3 as <-. by destruct (PyStr.contains "SC" o).
Qed.

Lemma carrier_step_carriers (o : string) (n n' : Network) :
  carrier_step o n = Ok n' → carriers n' = carriers n.
Proof.
  unfold carrier_step.
  destruct (PyStr.item (PyStr.split "+" o) 0) as [oo0|]; [|done].
  cbn [mbind result_bind].
  destruct (PyStr.startswith_any oo0 (suptechs n)); [|by intros [= <-]].
  destruct (PyStr.item (PyStr.split "+" o) 1) as [oo1|]; [|done].
  cbn [mbind result_bind].
  destruct (PyFloat.float oo1) as [f|]; [|done].
  cbn [mbind result_bind].
  destruct (bool_decide (oo0 = "AC")); by intros [= <-].
Qed.

Lemma resample_loop_carriers (opts : list string) (n n' : Network) :
  resample_loop opts n = Ok n' → carriers n' = carriers n.
Proof.
  induction opts as [|o opts IH]; cbn [resample_loop].
  - by intros [= <-].
  - destruct (Re.match_ resample_regex o) as [m|]; [|exact IH].
    unfold average_every_nhours.
    destruct (Resample.parse_offset m) as [w|]; [|done].
    cbn [mbind result_bind]. by intros [= <-].
Qed.

Lemma suptechs_carriers (n n' : Network) :
  carriers n' = carriers n → suptechs n' = suptechs n.
Proof. unfold suptechs. by intros ->. Qed.

Lemma resample_loop_skip (pre post : list string) (o : string) (n : Network) :
  Re.match_ resample_regex o = None →
  resample_loop (pre ++ o :: post)%list n = resample_loop (pre ++ post)%list n.
Proof.
  intros Ho. induction pre as [|p pre IH]; cbn [resample_loop app].
  - by rewrite Ho.
  - by destruct (Re.match_ resample_regex p).
Qed.

Lemma option_step_skip (Ny : Q) (o : string) (n : Network) :
  PyStr.contains "Co2L" o = false → PyStr.contains "SC" o = false →
  PyStr.contains "Ep" o = false → option_step cfg Ny o n = Ok n.
Proof.
  intros H1 H2 H3. unfold option_step, co2l_step, sc_step, ep_step.
  rewrite H1. cbn [mbind result_bind]. rewrite H2. cbn [mbind result_bind].
  by rewrite H3.
Qed.

Lemma for_each_skip (step : string → Network → result Network)
      (pre post : list string) (o : string) (n : Network) :
  (∀ n', for_each step pre n = Ok n' → step o n' = Ok n') →
  for_each step (pre ++ o :: post)%list n = for_each step (pre ++ post)%list n.
Proof.
  intros Hskip. rewrite !for_each_app.
  destruct (for_each step pre n) as [n'|e] eqn:E; [|reflexivity].
  cbn [mbind result_bind for_each]. by rewrite (Hskip n' eq_refl).
Qed.

Lemma autarky_step_skip (pre post : list string) (o : string) (n : Network) :
  o ≠ "ATK" → o ≠ "ATKc" →
  autarky_step (pre ++ o :: post)%list n = autarky_step (pre ++ post)%list n.
Proof.
  intros H1 H2. unfold autarky_step.
  assert (E : ∀ x : string, o ≠ x →
              bool_decide (x ∈ (pre ++ o :: post)%list)
              = bool_decide (x ∈ (pre ++ post)%list)).
  { intros x Hx. apply bool_decide_ext.
    rewrite !elem_of_app, elem_of_cons. split; [|tauto].
    intros [?|[?|?]]; [tauto|congruence|tauto]. }
  by rewrite !E.
Qed.

Lemma ignored_unfold (n : Network) (o : string) :
  ignored n o = true →
  Re.match_ resample_regex o = None ∧
  PyStr.contains "Co2L" o = false ∧ PyStr.contains "SC" o = false ∧
  PyStr.contains "Ep" o = false ∧
  PyStr.startswith_any (hd "" (PyStr.split "+" o)) (suptechs n) = false ∧
  o ≠ "ATK" ∧ o ≠ "ATKc".
Proof.
  unfold ignored. rewrite !andb_true_iff, !negb_true_iff.
  intros ((((((H1 & H2) & H3) & H4) & H5) & H6) & H7).
  split_and!; try done.
  - apply bool_decide_eq_false in H1.
    destruct (Re.match_ resample_regex o); [|done]. exfalso. apply H1. eauto.
  - by apply bool_decide_eq_false in H6.
  - by apply bool_decide_eq_false in H7.
Qed.


End Ignored.




(** * Further properties of the script *)

(** ** The list of tokens *)

Lemma split_cons_ne (sep c : ascii) (s : string) :
  c ≠ sep →
  ∃ (w : string) (ws : list string),
    PyStr.split sep s = w :: ws ∧ PyStr.split sep (String c s) = String c w :: ws.
Proof.
  intros Hc. destruct (split_nonempty sep s) as (w & ws & E).
  exists w, ws. split; [done|]. cbn. rewrite E.
  by rewrite (proj2 (Ascii.eqb_neq c sep) Hc).
Qed.

Lemma join_cons (sep : ascii) (a b : string) (l : list string) :
  join sep (a :: b :: l) = a ++ String sep (join sep (b :: l)).
Proof. reflexivity. Qed.

(** X1. The option wildcard is cut at every "-": the tokens joined with "-"
    give the wildcard back, there is at least one token, and no token
    contains a "-". *)
Theorem X1_split_tokens (sep : ascii) (s : string) :
  join sep (PyStr.split sep s) = s
  ∧ PyStr.split sep s ≠ []
  ∧ Forall (no_char sep) (PyStr.split sep s).
Proof.
  induction s as [|c s (Hj & Hne & Hall)].
  - cbn. split_and!; [done|done|]. by constructor.
  - destruct (Ascii.eqb_spec c sep) as [->|Hc].
    + cbn [PyStr.split]. rewrite Ascii.eqb_refl. split_and!.
      * destruct (split_nonempty sep s) as (w & ws & E).
        rewrite E in Hj |- *. by rewrite join_cons, Hj.
      * done.
      * by constructor.
    + destruct (split_cons_ne sep c s Hc) as (w & ws & E & ->).
      rewrite E in Hj, Hall. split_and!.
      * destruct ws as [|w' ws].
        -- cbn in Hj |- *. by rewrite Hj.
        -- rewrite join_cons in Hj |- *. rewrite <- Hj. reflexivity.
      * done.
      * inversion Hall as [|? ? Hw Hws]; subst. constructor; [|done]. by split.
Qed.

(** ** The security margin between its bounds *)

(** X2. The margin is never below 0.5 and never above 0.7, and from 37 to
    200 buses it is the line through (37, 0.5) and (200, 0.7). *)
Theorem X2_margin_range (c : nat) :
  0.5 <= margin c ∧ margin c <= 0.7
  ∧ ((37 ≤ c)%nat → (c ≤ 200)%nat →
     margin c == 0.5 + 0.2 * (inject_Z (Z.of_nat c) - 37) / (200 - 37)).
Proof.
  rewrite margin_unfold. split_and!.
  - apply Q.min_glb; [apply Q.le_max_r|discriminate].
  - apply Q.le_min_r.
  - intros Hlo Hhi. fold (margin_raw c).
    assert (H1 : inject_Z 37 <= inject_Z (Z.of_nat c)) by (rewrite <- Zle_Qle; lia).
    assert (H2 : inject_Z (Z.of_nat c) <= inject_Z 200) by (rewrite <- Zle_Qle; lia).
    change (inject_Z 37) with 37 in H1. change (inject_Z 200) with 200 in H2.
    assert (Hl : 0.5 <= margin_raw c) by (rewrite margin_raw_linear; lra).
    assert (Hh : margin_raw c <= 0.7) by (rewrite margin_raw_linear; lra).
    rewrite (Q.max_l _ _ Hl). apply Q.min_l, Hh.
Qed.

Lemma X2_margin_range_witness :
  margin 100 == 0.5 + 0.2 * (inject_Z (Z.of_nat 100) - 37) / (200 - 37).
Proof. apply (X2_margin_range 100); lia. Defined.

(** ** Resampling tokens *)

Module ResampleToken.
Import Re ReFacts StrFacts FloatRegex.

Lemma h_class (a : ascii) :
  in_class (LitNoCase "h") a = true ↔ a = "h"%char ∨ a = "H"%char.
Proof.
  split.
  - destruct a as [[] [] [] [] [] [] [] []]; intros H; try discriminate H; auto.
  - intros [-> | ->]; reflexivity.
Qed.

Lemma h_not_digit (a : ascii) :
  a = "h"%char ∨ a = "H"%char → PyStr.is_digit a = false.
Proof. intros [-> | ->]; reflexivity. Qed.

Lemma token_matches_inv (s : string) (k : nat) :
  Matches resample_regex true s k →
  ∃ (d : string) (h : ascii), resampling_token s d h ∧ k = S (String.length d).
Proof.
  intros H. inversion H as [|r s0 k0 HP| | | | | | |]; subst.
  inversion HP as [| | | | | | | |c r bos a s0 k0 Hc HS]; subst.
  apply star_inv in HS as (pre & s' & bos' & k' & -> & Hpre & HM & ->).
  inversion HM as [| | |c r bos h s0 k0 Hh HE| | | | |]; subst.
  inversion HE as [| |r bos s k He HN| | | | | |]; subst.
  inversion HN; subst.
  exists (String a pre), h. split.
  - exists s0. split_and!; try done.
    + by apply at_eol_line_end.
    + cbn [all_in]. by rewrite Hc, Hpre.
    + by apply h_class.
  - cbn. lia.
Qed.

Lemma token_matches_intro (o d : string) (h : ascii) :
  resampling_token o d h → Matches resample_regex true o (S (String.length d)).
Proof.
  intros (nl & -> & Hnl & Hd & Hne & Hh).
  destruct d as [|a d]; [done|]. cbn in Hd.
  apply andb_true_iff in Hd as [Ha Hd]. cbn [String.append String.length].
  apply M_bol, M_plus; [done|].
  replace (S (String.length d)) with (String.length d + 1)%nat by lia.
  apply star_intro; [done|]. intros b.
  apply M_one; [by apply h_class|].
  apply M_eol; [by apply at_eol_line_end|]. constructor.
Qed.

(** The digits of a token are what stands before its first character that
    is no digit. *)
Lemma digits_prefix_unique (d d' : string) (h h' : ascii) (r r' : string) :
  all_in Digit d = true → all_in Digit d' = true →
  PyStr.is_digit h = false → PyStr.is_digit h' = false →
  d ++ String h r = d' ++ String h' r' → d = d'.
Proof.
  revert d'. induction d as [|a d IH]; intros [|a' d'] Hd Hd' Hh Hh'; cbn.
  - done.
  - intros [= -> _]. cbn in Hd'. apply andb_true_iff in Hd' as [Ha _].
    cbn in Ha. congruence.
  - intros [= -> _]. cbn in Hd. apply andb_true_iff in Hd as [Ha _].
    cbn in Ha. congruence.
  - intros [= -> E]. cbn in Hd, Hd'.
    apply andb_true_iff in Hd as [_ Hd]. apply andb_true_iff in Hd' as [_ Hd'].
    f_equal. by apply (IH d').
Qed.

Lemma substring_token (d : string) (h : ascii) (nl : string) :
  String.substring 0 (S (String.length d)) (d ++ String h nl) = d ++ String h "".
Proof.
  replace (S (String.length d)) with (String.length (d ++ String h ""))
    by (rewrite length_append; cbn; lia).
  rewrite <- (substring_prefix (d ++ String h "") nl) at 2.
  by rewrite append_assoc.
Qed.

Lemma match_token (o d : string) (h : ascii) :
  resampling_token o d h → match_ resample_regex o = Some (d ++ String h "").
Proof.
  intros Ht. unfold match_.
  destruct (match_here_complete _ _ _ _ (token_matches_intro o d h Ht)) as [k Hk].
  rewrite Hk. cbn.
  apply match_here_sound, token_matches_inv in Hk as (d' & h' & Ht' & ->).
  destruct Ht as (nl & -> & Hnl & Hd & Hne & Hh).
  destruct Ht' as (nl' & E & Hnl' & Hd' & Hne' & Hh').
  assert (d = d') as <-.
  { apply (digits_prefix_unique d d' h h' nl nl' Hd Hd'
                                 (h_not_digit h Hh) (h_not_digit h' Hh') E). }
  by rewrite substring_token.
Qed.

Lemma match_inv (o m : string) :
  match_ resample_regex o = Some m →
  ∃ (d : string) (h : ascii), resampling_token o d h ∧ m = d ++ String h "".
Proof.
  unfold match_.
  destruct (match_here resample_regex true o) as [k|] eqn:Hk; [|done].
  cbn. intros [= <-].
  apply match_here_sound, token_matches_inv in Hk as (d & h & Ht & ->).
  exists d, h. split; [done|].
  destruct Ht as (nl & -> & _). apply substring_token.
Qed.

Lemma parse_offset_token (d : string) (h : ascii) :
  all_in Digit d = true → d ≠ "" → h = "h"%char ∨ h = "H"%char →
  Resample.parse_offset (d ++ String h "")
  = if (0 <? PyFloat.digits_val (digs d))%Z
    then Ok (PyFloat.digits_val (digs d) * Resample.hour)%Z
    else Raise (ValueError (d ++ String h "")).
Proof.
  intros Hd Hne Hh. unfold Resample.parse_offset.
  rewrite (FloatFacts.span_digits_app d _ Hd).
  assert (E : PyFloat.span_digits (String h "") = ([], String h ""))
    by (destruct Hh as [-> | ->]; reflexivity).
  rewrite E. cbn [fst snd]. rewrite app_nil_r.
  destruct (digs d) as [|x l] eqn:Ed; [by apply FloatFacts.digs_nonempty in Ed|].
  rewrite bool_decide_eq_true_2; [done|].
  destruct Hh as [-> | ->]; auto.
Qed.

End ResampleToken.




(** ** The resampled time axis *)

Lemma resample_shape {A B} (agg : list A → B) (w : Z) (s : list (Z * A)) :
  ∃ origin first len : Z,
    Resample.resample agg w s
    = ((fun k => ((origin + k * w)%Z, agg (Resample.in_bin origin w k s)))
         <$> seqZ first len)
    ∧ ((0 < w)%Z → ∀ p, p ∈ s →
       (first ≤ Resample.bin origin w p.1 < first + len)%Z).
Proof.
  destruct s as [|[t0 v0] rest].
  - exists 0%Z, 0%Z, 0%Z. split; [done|].
    intros _ p Hp. by apply elem_of_nil in Hp.
  - cbn [Resample.resample].
    set (lo := foldr Z.min t0 (fst <$> rest)).
    set (hi := foldr Z.max t0 (fst <$> rest)).
    set (origin := (Resample.day * (lo / Resample.day))%Z).
    exists origin, (Resample.bin origin w lo),
      (Resample.bin origin w hi - Resample.bin origin w lo + 1)%Z.
    split; [done|]. intros Hw p Hp.
    assert (Ht : p.1 ∈ t0 :: (fst <$> rest)).
    { change (t0 :: (fst <$> rest)) with (fst <$> ((t0, v0) :: rest)).
      by apply list_elem_of_fmap_2. }
    pose proof (ResampleFacts.fold_min_le _ _ _ Ht).
    pose proof (ResampleFacts.fold_max_ge _ _ _ Ht).
    pose proof (ResampleFacts.bin_mono origin w lo p.1 Hw).
    pose proof (ResampleFacts.bin_mono origin w p.1 hi Hw). lia.
Qed.

Lemma bin_interval (origin w t k : Z) :
  (0 < w)%Z →
  Resample.bin origin w t = k ↔ (origin + k * w ≤ t < origin + k * w + w)%Z.
Proof.
  intros Hw. unfold Resample.bin. split.
  - intros <-. pose proof (Z.mul_div_le (t - origin) w Hw).
    pose proof (Z.mul_succ_div_gt (t - origin) w Hw). lia.
  - intros H. symmetry. apply (Z.div_unique_pos _ _ _ (t - origin - k * w)); lia.
Qed.

(** X5. For a positive width [w], the resampled snapshots are a step of [w]
    apart; every snapshot of the network lies in the bin [label, label + w)
    of one of them; and the weight of a resampled snapshot is the sum of
    the weights of the snapshots in its bin. *)
Theorem X5_resampled_axis (w : Z) (s : list (Z * Q)) :
  (0 < w)%Z →
  (∀ (i : nat) (t t' : Z),
      (Resample.sum w s).*1 !! i = Some t →
      (Resample.sum w s).*1 !! S i = Some t' → t' = (t + w)%Z)
  ∧ (∀ p : Z * Q,
        p ∈ s →
        ∃ (label : Z) (v : Q),
          (label, v) ∈ Resample.sum w s ∧ (label ≤ p.1 < label + w)%Z)
  ∧ (∀ (label : Z) (v : Q),
        (label, v) ∈ Resample.sum w s →
        v = qsum ((filter (fun p : Z * Q => (label ≤ p.1 < label + w)%Z) s).*2)).
Proof.
  intros Hw. unfold Resample.sum.
  destruct (resample_shape qsum w s) as (origin & first & len & E & Hin).
  rewrite E. split_and!.
  - intros i t t'. rewrite <- !list_fmap_compose, !list_lookup_fmap.
    destruct (seqZ first len !! i) as [k|] eqn:Ek; [|done].
    destruct (seqZ first len !! S i) as [k'|] eqn:Ek'; [|done].
    cbn. intros [= <-] [= <-].
    apply lookup_seqZ in Ek as [-> _]. apply lookup_seqZ in Ek' as [-> _]. lia.
  - intros p Hp. specialize (Hin Hw p Hp).
    exists (origin + Resample.bin origin w p.1 * w)%Z,
      (qsum (Resample.in_bin origin w (Resample.bin origin w p.1) s)).
    split.
    + apply (list_elem_of_fmap_2
               (fun k => ((origin + k * w)%Z, qsum (Resample.in_bin origin w k s)))).
      apply elem_of_seqZ. lia.
    + by apply (bin_interval origin w p.1).
  - intros label v [k [[= -> ->] Hk]]%list_elem_of_fmap.
    unfold Resample.in_bin. do 2 f_equal.
    apply list_filter_iff. intros p. by apply bin_interval.
Qed.

Lemma X5_resampled_axis_witness :
  ∃ (label : Z) (v : Q),
    (label, v) ∈ Resample.sum (2 * Resample.hour) (snapshot_weightings Sample.net) ∧
    (label ≤ Resample.hour < label + 2 * Resample.hour)%Z.
Proof.
  refine (proj1 (proj2 (X5_resampled_axis (2 * Resample.hour)
                                          (snapshot_weightings Sample.net) _))
                (Resample.hour, 5840) _).
  - reflexivity.
  - apply elem_of_cons. right. apply elem_of_cons. left. reflexivity.
Defined.

(** ** Emission prices *)

Module PriceFacts.

Lemma renamed_co2 (p : Q) :
  kmap (fun x => x ++ "_emissions") ({[ "co2" := p ]} : gmap string Q)
  = ({[ "co2_emissions" := p ]} : gmap string Q).
Proof.
  unfold kmap. rewrite map_to_list_singleton. cbn.
  by rewrite insert_empty.
Qed.

(** With a price for CO2 only, the price of a carrier is the CO2 price
    times the cell [co2_emissions] of the carrier (nothing without that
    cell). *)
Lemma carrier_price_co2 (p : Q) (row : gmap string Q) :
  carrier_price {[ "co2" := p ]} row
  == p * default 0 (row !! "co2_emissions").
Proof.
  unfold carrier_price. rewrite renamed_co2.
  destruct (row !! "co2_emissions") as [e|] eqn:He; cbn [default from_option];
    unfold id.
  - assert (E : intersection_with (fun p0 v : Q => Some (p0 * v))
                  ({[ "co2_emissions" := p ]} : gmap string Q)
                  (filter (fun kv : string * Q =>
                             PyStr.contains "_emissions" kv.1 = true) row)
                = {[ "co2_emissions" := p * e ]}).
    { apply map_eq. intros k. rewrite lookup_intersection_with.
      destruct (decide (k = "co2_emissions")) as [->|Hk].
      - rewrite !lookup_singleton_eq.
        rewrite (proj2 (map_lookup_filter_Some _ row "co2_emissions" e));
          [done|]. split; [done|reflexivity].
      - by rewrite !lookup_singleton_ne. }
    rewrite E. unfold row_sum. rewrite map_fold_singleton. ring.
  - assert (E : intersection_with (fun p0 v : Q => Some (p0 * v))
                  ({[ "co2_emissions" := p ]} : gmap string Q)
                  (filter (fun kv : string * Q =>
                             PyStr.contains "_emissions" kv.1 = true) row)
                = ∅).
    { apply map_eq. intros k. rewrite lookup_intersection_with, lookup_empty.
      destruct (decide (k = "co2_emissions")) as [->|Hk].
      - rewrite lookup_singleton_eq.
        rewrite (proj2 (map_lookup_filter_None _ row "co2_emissions"));
          [done|]. by left.
      - by rewrite lookup_singleton_ne. }
    rewrite E. unfold row_sum. rewrite map_fold_empty. ring.
Qed.

Lemma div_finite (x y : Q) : ¬ y == 0 → F.div x y = Num (x / y).
Proof.
  intros Hy. unfold F.div.
  destruct (Qeq_bool y 0) eqn:E; [|done]. by apply Qeq_bool_iff in E.
Qed.

End PriceFacts.

(** X6. With a price [p] for CO2 (what a token "Ep<p>" gives), the marginal
    cost of a generator with a finite marginal cost [c], an efficiency that
    is not zero and a carrier of the carrier table rises by p times the CO2
    intensity of the carrier (zero when the carrier has none) divided by the
    efficiency; its carrier, efficiency and capital cost stay, and the
    call does not read the configuration. *)
Theorem X6_co2_price_on_generator cfg (n : Network) (p c : Q) (k : string)
        (g : Generator.t) (row : gmap string Q) :
  generators n !! k = Some g →
  carriers n !! Generator.carrier g = Some row →
  ¬ Generator.efficiency g == 0 →
  Generator.marginal_cost g = Num c →
  ∃ (n' : Network) (g' : Generator.t),
    add_emission_prices cfg n (Some {[ "co2" := p ]}) false = Ok n' ∧
    generators n' !! k = Some g' ∧
    F.eq (Generator.marginal_cost g')
         (Num (c + p * default 0 (row !! "co2_emissions") / Generator.efficiency g)) ∧
    Generator.carrier g' = Generator.carrier g ∧
    Generator.efficiency g' = Generator.efficiency g ∧
    Generator.capital_cost g' = Generator.capital_cost g.
Proof.
  intros Hg Hrow Heff Hc. eexists _, _. split; [reflexivity|].
  cbn [generators with_generators with_storage_units].
  rewrite lookup_fmap, Hg. cbn [fmap option_fmap option_map]. split; [reflexivity|].
  split_and!; try reflexivity.
  cbn [Generator.marginal_cost Generator.set_marginal_cost].
  unfold emission_price_of. rewrite Hrow, Hc, (PriceFacts.div_finite _ _ Heff).
  cbn [F.add F.eq]. rewrite PriceFacts.carrier_price_co2. reflexivity.
Qed.

Lemma X6_co2_price_on_generator_witness :
  ∃ (n' : Network) (g' : Generator.t),
    add_emission_prices Sample.cfg Sample.net (Some {[ "co2" := 10 ]}) false = Ok n' ∧
    generators n' !! "g1" = Some g' ∧
    F.eq (Generator.marginal_cost g') (Num (3 + 10 * 0.2 / 0.5)) ∧
    Generator.carrier g' = "gas" ∧
    Generator.efficiency g' = 0.5 ∧
    Generator.capital_cost g' = 100.
Proof.
  destruct (X6_co2_price_on_generator Sample.cfg Sample.net 10 3 "g1"
              (Generator.mk "gas" 0.5 (Num 3) 100) {[ "co2_emissions" := 0.2 ]})
    as (n' & g' & Hn' & Hg' & Hm & Hc & He & Hk).
  - reflexivity.
  - reflexivity.
  - discriminate.
  - reflexivity.
  - exists n', g'. split_and!; done.
Defined.

(** X7. Whatever the prices, a generator whose carrier is not in the
    carrier table comes out of the emission prices with the marginal cost
    [nan], and so does a storage unit. *)
Theorem X7_unknown_carrier_nan cfg (n n' : Network)
        (prices : option (gmap string Q)) (exclude_co2 : bool) :
  add_emission_prices cfg n prices exclude_co2 = Ok n' →
  (∀ (k : string) (g : Generator.t),
      generators n !! k = Some g → carriers n !! Generator.carrier g = None →
      Generator.marginal_cost <$> generators n' !! k = Some NaN)
  ∧ (∀ (k : string) (u : StorageUnit.t),
        storage_units n !! k = Some u →
        carriers n !! StorageUnit.carrier u = None →
        StorageUnit.marginal_cost <$> storage_units n' !! k = Some NaN).
Proof.
  unfold add_emission_prices.
  destruct (match prices with
            | Some p0 => Ok p0
            | None => getitem (costs cfg) "costs" "emission_prices"
            end) as [pr|]; [|done].
  cbn [mbind result_bind].
  destruct (if exclude_co2 then match pr !! "co2" with
                                | Some _ => Ok (delete "co2" pr)
                                | None => Raise (KeyError "co2")
                                end
            else Ok pr) as [pr'|]; [|done].
  cbn [mbind result_bind]. intros [= <-].
  cbn [generators storage_units with_generators with_storage_units]. split.
  - intros k g Hg Hc. rewrite lookup_fmap, Hg. cbn.
    unfold emission_price_of. rewrite Hc. by destruct (Generator.marginal_cost g).
  - intros k u Hu Hc. rewrite lookup_fmap, Hu. cbn.
    unfold emission_price_of. rewrite Hc. by destruct (StorageUnit.marginal_cost u).
Qed.

Lemma X7_unknown_carrier_nan_witness :
  ∃ n' : Network,
    add_emission_prices Sample.cfg Sample.net None false = Ok n' ∧
    StorageUnit.marginal_cost <$> storage_units n' !! "s1" = Some NaN.
Proof.
  eexists. split; [reflexivity|].
  refine (proj2 (X7_unknown_carrier_nan Sample.cfg Sample.net _ None false eq_refl)
                "s1" (StorageUnit.mk "battery" 0.9 (Num 0) 50) _ _); reflexivity.
Defined.

(** ** What the option loop can raise *)

Section OptionErrors.

Variable cfg : Config.

Lemma getitem_error {V} (d : option (gmap string V)) (section k : string) (e : exn) :
  getitem d section k = Raise e → ∃ key : string, e = KeyError key.
Proof.
  unfold getitem. destruct d as [m|]; [destruct (m !! k)|]; intros [= <-]; eauto.
Qed.

Lemma getitem_ok {V} (d : option (gmap string V)) (section k : string) (x : V) :
  getitem d section k = Ok x ↔ ∃ m, d = Some m ∧ m !! k = Some x.
Proof.
  unfold getitem. split.
  - destruct d as [m|]; [|done]. destruct (m !! k) as [y|] eqn:E; [|done].
    intros [= <-]. eauto.
  - intros (m & -> & ->). done.
Qed.

Lemma add_co2limit_error (n : Network) (Ny : Q) (v : option Q) (e : exn) :
  add_co2limit cfg n Ny v = Raise e →
  (∃ key : string, e = KeyError key) ∨ e = AssertionError "CO2Limit".
Proof.
  unfold add_co2limit, add_global_constraint.
  destruct v as [f|].
  - destruct (getitem (electricity cfg) "electricity" "co2base") as [B|e0] eqn:E.
    + cbn [mbind result_bind].
      destruct (global_constraints n !! "CO2Limit"); [|done].
      intros [= <-]. by right.
    + cbn [mbind result_bind]. intros [= <-]. left. by eapply getitem_error.
  - destruct (getitem (electricity cfg) "electricity" "co2limit") as [L|e0] eqn:E.
    + cbn [mbind result_bind].
      destruct (global_constraints n !! "CO2Limit"); [|done].
      intros [= <-]. by right.
    + cbn [mbind result_bind]. intros [= <-]. left. by eapply getitem_error.
Qed.

Lemma add_emission_prices_error (n : Network) (p : option (gmap string Q)) (e : exn) :
  add_emission_prices cfg n p false = Raise e → ∃ key : string, e = KeyError key.
Proof.
  unfold add_emission_prices. destruct p as [p|]; [done|].
  destruct (getitem (costs cfg) "costs" "emission_prices") as [pr|e0] eqn:E; [done|].
  cbn [mbind result_bind]. intros [= <-]. by eapply getitem_error.
Qed.

(** X8. The security margin test never raises, and the body of the option
    loop raises nothing but a [KeyError] of the configuration or the
    assertion of pypsa on the name "CO2Limit": the numbers come from what
    the pattern matched, and [float] reads all of those. *)
Theorem X8_option_loop_errors (Nyears : Q) (o : string) (n : Network) :
  (∃ n' : Network, sc_step o n = Ok n')
  ∧ ∀ e : exn,
      option_step cfg Nyears o n = Raise e →
      (∃ key : string, e = KeyError key) ∨ e = AssertionError "CO2Limit".
Proof.
  destruct (FloatFacts.token_value_total o) as [v Hv]. split.
  - rewrite (sc_step_value o n v Hv). eauto.
  - intros e. unfold option_step. rewrite (co2l_step_value cfg Nyears o n v Hv).
    destruct (if PyStr.contains "Co2L" o then add_co2limit cfg n Nyears v else Ok n)
      as [n1|e1] eqn:E1.
    + cbn [mbind result_bind]. rewrite (sc_step_value o n1 v Hv).
      cbn [mbind result_bind]. rewrite (ep_step_value cfg o _ v Hv).
      destruct (PyStr.contains "Ep" o); [|done].
      intros He. left. by eapply add_emission_prices_error.
    + cbn [mbind result_bind]. intros [= <-].
      destruct (PyStr.contains "Co2L" o); [|done].
      by eapply add_co2limit_error.
Qed.

Lemma add_co2limit_ok (n : Network) (Ny : Q) (v : option Q) :
  (∃ n' : Network, add_co2limit cfg n Ny v = Ok n')
  ↔ global_constraints n !! "CO2Limit" = None
    ∧ ∃ (e : gmap string Q) (x : Q),
        electricity cfg = Some e
        ∧ e !! match v with Some _ => "co2base" | None => "co2limit" end = Some x.
Proof.
  unfold add_co2limit, add_global_constraint. destruct v as [f|].
  - destruct (getitem (electricity cfg) "electricity" "co2base") as [B|e0] eqn:E.
    + apply getitem_ok in E as (m & Hm & HB). cbn [mbind result_bind].
      destruct (global_constraints n !! "CO2Limit"); split.
      * by intros [? ?].
      * by intros [? _].
      * eauto 6.
      * eauto.
    + cbn [mbind result_bind]. split; [by intros [? ?]|].
      intros (_ & m & x & Hm & Hx).
      assert (getitem (electricity cfg) "electricity" "co2base" = Ok x)
        by (apply getitem_ok; eauto). congruence.
  - destruct (getitem (electricity cfg) "electricity" "co2limit") as [B|e0] eqn:E.
    + apply getitem_ok in E as (m & Hm & HB). cbn [mbind result_bind].
      destruct (global_constraints n !! "CO2Limit"); split.
      * by intros [? ?].
      * by intros [? _].
      * eauto 6.
      * eauto.
    + cbn [mbind result_bind]. split; [by intros [? ?]|].
      intros (_ & m & x & Hm & Hx).
      assert (getitem (electricity cfg) "electricity" "co2limit" = Ok x)
        by (apply getitem_ok; eauto). congruence.
Qed.

(** X9. A token with "Co2L" goes through exactly when the network has no
    constraint "CO2Limit" yet and the configuration has the key the token
    needs: [co2base] when a number ends the token, [co2limit] when none
    does. *)
Theorem X9_co2_limit_needs (Nyears : Q) (o : string) (n : Network) (v : option Q) :
  PyStr.contains "Co2L" o = true →
  token_value o v →
  (∃ n' : Network, co2l_step cfg Nyears o n = Ok n')
  ↔ global_constraints n !! "CO2Limit" = None
    ∧ ∃ (e : gmap string Q) (x : Q),
        electricity cfg = Some e
        ∧ e !! match v with Some _ => "co2base" | None => "co2limit" end = Some x.
Proof.
  intros Ho Hv. rewrite (co2l_step_value cfg Nyears o n v Hv), Ho.
  apply add_co2limit_ok.
Qed.

(** X10. A token with "Ep" that ends in a number goes through whatever the
    configuration is; one that ends in no number goes through exactly
    when [emission_prices] is configured. *)
Theorem X10_emission_price_needs (o : string) (n : Network) :
  PyStr.contains "Ep" o = true →
  (∀ m : string, trailing_decimal o m → ∃ n' : Network, ep_step cfg o n = Ok n')
  ∧ (no_trailing_decimal o →
     (∃ n' : Network, ep_step cfg o n = Ok n')
     ↔ ∃ (sec : gmap string (gmap string Q)) (p : gmap string Q),
         costs cfg = Some sec ∧ sec !! "emission_prices" = Some p).
Proof.
  intros Ho. split.
  - intros m Hm.
    destruct (FloatFacts.float_decimal m) as [f Hf].
    { by destruct Hm as (? & ? & _ & _ & ? & _). }
    rewrite (ep_step_value cfg o n (Some f)), Ho; [eauto|].
    right. eauto.
  - intros Hno. rewrite (ep_step_value cfg o n None), Ho by (by left).
    unfold add_emission_prices. cbn [fmap option_fmap option_map].
    destruct (getitem (costs cfg) "costs" "emission_prices") as [p|e] eqn:E.
    + apply getitem_ok in E as (sec & Hsec & Hp). split; eauto.
    + cbn [mbind result_bind]. split; [by intros [? ?]|].
      intros (sec & p & Hsec & Hp).
      assert (getitem (costs cfg) "costs" "emission_prices" = Ok p)
        by (apply getitem_ok; eauto). congruence.
Qed.

End OptionErrors.

Lemma X9_co2_limit_needs_witness :
  (∃ n' : Network, co2l_step Sample.cfg 2 "Co2L" Sample.net = Ok n')
  ↔ global_constraints Sample.net !! "CO2Limit" = None
    ∧ ∃ (e : gmap string Q) (x : Q),
        electricity Sample.cfg = Some e ∧ e !! "co2limit" = Some x.
Proof.
  apply (X9_co2_limit_needs Sample.cfg 2 "Co2L" Sample.net None).
  - reflexivity.
  - left. split; [|reflexivity]. apply Suffix.findall_none. reflexivity.
Defined.

Lemma X10_emission_price_needs_witness :
  ∃ n' : Network,
    ep_step (mkConfig None None None None) "Ep7.5" Sample.net = Ok n'.
Proof.
  refine (proj1 (X10_emission_price_needs (mkConfig None None None None)
                                          "Ep7.5" Sample.net _) "7.5" _).
  - reflexivity.
  - apply Suffix.findall_trailing. reflexivity.
Defined.

(** ** Two tokens with a CO2 limit *)

Section TwoLimits.

Variable line_cost : Q → string → Line.t → Q.
Variable dc_link_cost : Q → string → Link.t → Q.
Variable cfg : Config.

Lemma add_co2limit_has_limit (n n' : Network) (Ny : Q) (v : option Q) :
  add_co2limit cfg n Ny v = Ok n' → has_limit n'.
Proof.
  intros H. assert (Hok : ∃ n', add_co2limit cfg n Ny v = Ok n') by eauto.
  apply add_co2limit_ok in Hok as [Hfresh _]. revert H.
  unfold add_co2limit, add_global_constraint.
  destruct (match v with
            | Some f =>
                getitem (electricity cfg) "electricity" "co2base"
                ≫= (fun co2base : Q => Ok (f * co2base))
            | None => getitem (electricity cfg) "electricity" "co2limit"
            end) as [a|]; [|done].
  cbn [mbind result_bind]. rewrite Hfresh. intros [= <-].
  unfold has_limit. cbn. rewrite lookup_insert_eq. eauto.
Qed.

Lemma add_emission_prices_constraints (n n' : Network)
      (p : option (gmap string Q)) (x : bool) :
  add_emission_prices cfg n p x = Ok n' →
  global_constraints n' = global_constraints n.
Proof.
  unfold add_emission_prices.
  destruct (match p with
            | Some p0 => Ok p0
            | None => getitem (costs cfg) "costs" "emission_prices"
            end) as [prices|]; [|done].
  cbn [mbind result_bind].
  destruct (if x then match prices !! "co2" with
                      | Some _ => Ok (delete "co2" prices)
                      | None => Raise (KeyError "co2")
                      end
            else Ok prices) as [prices'|]; [|done].
  cbn [mbind result_bind]. by intros [= <-].
Qed.

Lemma option_step_has_limit (Ny : Q) (o : string) (n n' : Network) :
  option_step cfg Ny o n = Ok n' →
  (PyStr.contains "Co2L" o = true → ¬ has_limit n)
  ∧ (has_limit n ∨ PyStr.contains "Co2L" o = true → has_limit n').
Proof.
  destruct (FloatFacts.token_value_total o) as [v Hv].
  unfold option_step. rewrite (co2l_step_value cfg Ny o n v Hv).
  destruct (if PyStr.contains "Co2L" o then add_co2limit cfg n Ny v else Ok n)
    as [n1|] eqn:E1; [|done].
  cbn [mbind result_bind]. rewrite (sc_step_value o n1 v Hv).
  cbn [mbind result_bind]. rewrite (ep_step_value cfg o _ v Hv).
  intros E3.
  assert (Hgc : global_constraints n' = global_constraints n1).
  { destruct (PyStr.contains "Ep" o).
    - apply add_emission_prices_constraints in E3. rewrite E3.
      by destruct (PyStr.contains "SC" o).
    - injection E3 as <-. by destruct (PyStr.contains "SC" o). }
  unfold has_limit. rewrite Hgc.
  destruct (PyStr.contains "Co2L" o).
  - split.
    + intros _ [c Hc].
      assert (Hok : ∃ n', add_co2limit cfg n Ny v = Ok n') by eauto.
      apply add_co2limit_ok in Hok as [Hfresh _]. congruence.
    + intros _. by eapply add_co2limit_has_limit.
  - injection E1 as <-. split; [done|]. by intros [?|?].
Qed.

Lemma for_each_has_limit (Ny : Q) (opts : list string) (n n' : Network) :
  for_each (option_step cfg Ny) opts n = Ok n' → has_limit n → has_limit n'.
Proof.
  revert n. induction opts as [|o opts IH]; intros n; cbn [for_each].
  - by intros [= <-].
  - destruct (option_step cfg Ny o n) as [n1|] eqn:E; [|done].
    cbn [mbind result_bind]. intros H Hn. apply (IH n1 H).
    apply (option_step_has_limit Ny o n n1 E). by left.
Qed.

Lemma two_limits_fail (Ny : Q) (pre mid post : list string) (o1 o2 : string)
      (n n' : Network) :
  PyStr.contains "Co2L" o1 = true → PyStr.contains "Co2L" o2 = true →
  for_each (option_step cfg Ny) (pre ++ o1 :: mid ++ o2 :: post)%list n ≠ Ok n'.
Proof.
  intros H1 H2. rewrite for_each_app.
  destruct (for_each (option_step cfg Ny) pre n) as [n1|]; [|done].
  cbn [mbind result_bind for_each].
  destruct (option_step cfg Ny o1 n1) as [n2|] eqn:E1; [|done].
  cbn [mbind result_bind]. rewrite for_each_app.
  destruct (for_each (option_step cfg Ny) mid n2) as [n3|] eqn:E2; [|done].
  cbn [mbind result_bind for_each].
  destruct (option_step cfg Ny o2 n3) as [n4|] eqn:E3; [|done].
  exfalso. apply (proj1 (option_step_has_limit Ny o2 n3 n4 E3) H2).
  apply (for_each_has_limit Ny mid n2 n3 E2).
  apply (option_step_has_limit Ny o1 n1 n2 E1). by right.
Qed.

(** X11. With two tokens that contain "Co2L" among the options the script
    never returns a network: the second constraint "CO2Limit" runs into the
    assertion of pypsa, if nothing failed before. *)
Theorem X11_two_co2_limits (pre mid post : list string) (o1 o2 ll : string)
        (n n' : Network) :
  PyStr.contains "Co2L" o1 = true → PyStr.contains "Co2L" o2 = true →
  main_tokens line_cost dc_link_cost cfg (pre ++ o1 :: mid ++ o2 :: post)%list ll n
  ≠ Ok n'.
Proof.
  intros H1 H2. unfold main_tokens.
  destruct (resample_loop _ _) as [n1|]; [|done].
  cbn [mbind result_bind].
  destruct (for_each (option_step cfg (Nyears_of n)) _ n1) as [n2|] eqn:E; [|done].
  by apply two_limits_fail in E.
Qed.

End TwoLimits.

Lemma X11_two_co2_limits_witness :
  ¬ ∃ n' : Network,
      main_tokens Sample.line_cost Sample.dc_link_cost Sample.cfg
                  ["Co2L0.5"; "2H"; "Co2L"] "v1.5" Sample.net = Ok n'.
Proof.
  intros [n' H].
  apply (X11_two_co2_limits Sample.line_cost Sample.dc_link_cost Sample.cfg
                            [] ["2H"] [] "Co2L0.5" "Co2L" "v1.5" Sample.net n');
    [reflexivity|reflexivity|exact H].
Defined.


(** ** The ceilings of the links *)

Lemma clip_upper_idem (u x : fnum) :
  F.clip_upper u (F.clip_upper u x) = F.clip_upper u x.
Proof.
  destruct u as [b| | |], x as [q| | |]; cbn; try reflexivity.
  - destruct (Qle_bool q b) eqn:E; cbn; [by rewrite E|].
    by destruct (Qle_bool b b).
  - by destruct (Qle_bool b b).
Qed.

Lemma clip_upper_le (b : Q) (x : fnum) :
  x ≠ NaN → F.leb (F.clip_upper (Num b) x) (Num b) = true.
Proof.
  intros Hx. destruct x as [q| | |]; cbn; try done.
  - destruct (Qle_bool q b) eqn:E; cbn; [done|].
    apply Qle_bool_iff, Qle_refl.
  - apply Qle_bool_iff, Qle_refl.
Qed.

Lemma clip_upper_within (u x : fnum) : F.leb x u = true → F.clip_upper u x = x.
Proof.
  destruct u as [b| | |], x as [q| | |]; cbn; try done.
  by intros ->.
Qed.

(** X12. When the configuration has the sections [lines] and [links] and
    the key [p_nom_max] of the links is the number [b], the step returns a
    network in which every link has a ceiling of at most [b] (a [nan]
    ceiling stays [nan]); a link whose ceiling was within [b] is the same
    as before, and no link is added or dropped. *)
Theorem X12_links_ceiling cfg (ls lk : gmap string fnum) (b : Q) (n : Network) :
  cfg_lines cfg = Some ls → cfg_links cfg = Some lk →
  lk !! "p_nom_max" = Some (Num b) →
  ∃ n' : Network,
    set_line_nom_max cfg n = Ok n' ∧
    dom (links n') = dom (links n) ∧
    ∀ (k : string) (l : Link.t),
      links n !! k = Some l →
      ∃ l' : Link.t,
        links n' !! k = Some l' ∧
        (Link.p_nom_max l ≠ NaN → F.leb (Link.p_nom_max l') (Num b) = true) ∧
        (Link.p_nom_max l = NaN → Link.p_nom_max l' = NaN) ∧
        (F.leb (Link.p_nom_max l) (Num b) = true → l' = l).
Proof.
  intros Hls Hlk Hb. unfold set_line_nom_max, get_default.
  rewrite Hls, Hlk, Hb. cbn [mbind result_bind default from_option id].
  eexists. split; [reflexivity|].
  cbn [links lines with_links with_lines]. split.
  - apply set_eq. intros k. rewrite !elem_of_dom, lookup_fmap.
    destruct (links n !! k); cbn; split; intros [? ?]; eauto.
  - intros k l Hl. rewrite lookup_fmap, Hl. cbn [fmap option_fmap option_map].
    eexists. split; [reflexivity|]. cbn [Link.p_nom_max Link.set_p_nom_max].
    split_and!.
    + apply clip_upper_le.
    + intros ->. reflexivity.
    + intros Hle. rewrite (clip_upper_within _ _ Hle). by destruct l.
Qed.

Lemma X12_links_ceiling_witness :
  ∃ n' : Network,
    set_line_nom_max Sample.cfg Sample.net = Ok n' ∧
    dom (links n') = dom (links Sample.net) ∧
    ∀ (k : string) (l : Link.t),
      links Sample.net !! k = Some l →
      ∃ l' : Link.t,
        links n' !! k = Some l' ∧
        (Link.p_nom_max l ≠ NaN → F.leb (Link.p_nom_max l') (Num 800) = true) ∧
        (Link.p_nom_max l = NaN → Link.p_nom_max l' = NaN) ∧
        (F.leb (Link.p_nom_max l) (Num 800) = true → l' = l).
Proof.
  apply (X12_links_ceiling Sample.cfg {[ "s_nom_max" := Num 500 ]}
                           {[ "p_nom_max" := Num 800 ]} 800 Sample.net);
    reflexivity.
Defined.

Ltac settle_sections :=
  intros;
  repeat match goal with
         | H : _ ∧ _ |- _ => destruct H
         | H : is_Some _ |- _ => destruct H as [? H]
         | H : ∃ _, _ |- _ => destruct H
         end;
  try discriminate; eauto.

(** X13. The step raises [KeyError] exactly when the section [lines] or
    the section [links] is missing from the configuration (a missing key
    inside a section is no error), and running it a second time changes
    nothing. *)
Theorem X13_ceiling_errors_and_rerun cfg (n : Network) :
  (set_line_nom_max cfg n = Raise (KeyError "lines") ↔ cfg_lines cfg = None)
  ∧ (set_line_nom_max cfg n = Raise (KeyError "links")
     ↔ is_Some (cfg_lines cfg) ∧ cfg_links cfg = None)
  ∧ ((∃ n', set_line_nom_max cfg n = Ok n')
     ↔ is_Some (cfg_lines cfg) ∧ is_Some (cfg_links cfg))
  ∧ ∀ n' : Network,
      set_line_nom_max cfg n = Ok n' → set_line_nom_max cfg n' = Ok n'.
Proof.
  unfold set_line_nom_max, get_default.
  destruct (cfg_lines cfg) as [ls|], (cfg_links cfg) as [lk|];
    cbn [mbind result_bind].
  - split_and!; [split; settle_sections ..|].
    intros ? [= <-]. f_equal.
    set (fl := fun l : Line.t =>
                 Line.set_s_nom_max
                   (F.clip_upper (default PInf (ls !! "s_nom_max,"))
                                 (Line.s_nom_max l)) l).
    set (fk := fun l : Link.t =>
                 Link.set_p_nom_max
                   (F.clip_upper (default PInf (lk !! "p_nom_max"))
                                 (Link.p_nom_max l)) l).
    assert (Hl : fl <$> (fl <$> lines n) = fl <$> lines n).
    { rewrite <- map_fmap_compose. apply map_fmap_ext. intros k [] _.
      unfold fl. cbn. by rewrite clip_upper_idem. }
    assert (Hk : fk <$> (fk <$> links n) = fk <$> links n).
    { rewrite <- map_fmap_compose. apply map_fmap_ext. intros k [] _.
      unfold fk. cbn. by rewrite clip_upper_idem. }
    unfold with_links, with_lines.
    cbn [buses carriers line_types lines links generators storage_units
         global_constraints snapshot_weightings pnl].
    by rewrite Hl, Hk.
  - split_and!; [split; settle_sections ..|settle_sections].
  - split_and!; [split; settle_sections ..|settle_sections].
  - split_and!; [split; settle_sections ..|settle_sections].
Qed.

(** ** More on autarky *)

Module AutarkyFacts.

Lemma filter_none_removed {A} (names : gset string) (m : gmap string A) :
  names = ∅ → filter (fun kv : string * A => kv.1 ∉ names) m = m.
Proof.
  intros ->. apply map_eq. intros k. rewrite mremove_lookup.
  destruct (decide (k ∈ (∅ : gset string))) as [H|]; [|done].
  by apply not_elem_of_empty in H.
Qed.

Lemma drop_columns_lookup (list_name : string) (names : gset string)
      (p : gmap (string * string) frame) (key : string * string) :
  drop_columns list_name names p !! key
  = (fun df : frame =>
       if bool_decide (key.1 = list_name)
       then filter (fun kv : string * series => kv.1 ∉ names) df else df)
      <$> p !! key.
Proof. unfold drop_columns. rewrite map_lookup_imap. by destruct (p !! key). Qed.

Lemma drop_columns_none (list_name : string) (names : gset string)
      (p : gmap (string * string) frame) :
  names = ∅ → drop_columns list_name names p = p.
Proof.
  intros Hn. apply map_eq. intros key. rewrite drop_columns_lookup.
  destruct (p !! key) as [df|]; cbn; [|done].
  destruct (bool_decide (key.1 = list_name)); [|done].
  by rewrite filter_none_removed.
Qed.

Lemma mremove_lines_none (names : gset string) (n : Network) :
  names = ∅ → mremove_lines names n = n.
Proof.
  intros Hn. unfold mremove_lines.
  rewrite (drop_columns_none _ _ _ Hn), (filter_none_removed _ _ Hn).
  by destruct n.
Qed.

Lemma mremove_links_none (names : gset string) (n : Network) :
  names = ∅ → mremove_links names n = n.
Proof.
  intros Hn. unfold mremove_links.
  rewrite (drop_columns_none _ _ _ Hn), (filter_none_removed _ _ Hn).
  by destruct n.
Qed.

Lemma dom_filter_empty {A} (P : A → bool) (m : gmap string A) :
  (∀ k x, m !! k = Some x → P x = false) →
  dom (filter (fun kv : string * A => P kv.2 = true) m) = (∅ : gset string).
Proof.
  intros H. apply set_eq. intros k. rewrite elem_of_dom. split.
  - intros [x Hx]. apply map_lookup_filter_Some in Hx as [Hx HP]. cbn in HP.
    rewrite (H k x Hx) in HP. done.
  - intros Hk. by apply not_elem_of_empty in Hk.
Qed.

Lemma buses_after (n : Network) (b : bool) :
  buses (enforce_autarky n b) = buses n.
Proof. reflexivity. Qed.

Lemma lines_after_all (n : Network) (b : bool) (k : string) (l : Line.t) :
  lines (enforce_autarky n b) !! k = Some l →
  b = true ∧ lines n !! k = Some l ∧ line_crossborder n l = false.
Proof.
  destruct b.
  - rewrite enforce_autarky_lines.
    destruct (lines n !! k) as [l0|]; cbn; [|done].
    destruct (line_crossborder n l0) eqn:E; [done|]. by intros [= <-].
  - by rewrite (proj1 (enforce_autarky_all n)), lookup_empty.
Qed.

Lemma links_after_all (n : Network) (b : bool) (k : string) (l : Link.t) :
  links (enforce_autarky n b) !! k = Some l →
  b = true ∧ links n !! k = Some l ∧ link_crossborder n l = false.
Proof.
  destruct b.
  - rewrite enforce_autarky_links.
    destruct (links n !! k) as [l0|]; cbn; [|done].
    destruct (link_crossborder n l0) eqn:E; [done|]. by intros [= <-].
  - by rewrite (proj2 (enforce_autarky_all n)), lookup_empty.
Qed.

End AutarkyFacts.

(** X14. Autarky enforced a second time changes nothing: after the first
    run no line or link is left that the second would remove. *)
Theorem X14_autarky_rerun (n : Network) (only_crossborder : bool) :
  enforce_autarky (enforce_autarky n only_crossborder) only_crossborder
  = enforce_autarky n only_crossborder.
Proof.
  set (n1 := enforce_autarky n only_crossborder).
  assert (Hlines : (if only_crossborder
                    then dom (filter (fun kv : string * Line.t =>
                                        line_crossborder n1 kv.2 = true) (lines n1))
                    else dom (lines n1)) = (∅ : gset string)).
  { destruct only_crossborder.
    - apply AutarkyFacts.dom_filter_empty. intros k l Hl.
      by apply AutarkyFacts.lines_after_all in Hl as (_ & _ & ?).
    - subst n1. by rewrite (proj1 (enforce_autarky_all n)), dom_empty_L. }
  assert (Hlinks : (if only_crossborder
                    then dom (filter (fun kv : string * Link.t =>
                                        link_crossborder n1 kv.2 = true) (links n1))
                    else dom (links n1)) = (∅ : gset string)).
  { destruct only_crossborder.
    - apply AutarkyFacts.dom_filter_empty. intros k l Hl.
      by apply AutarkyFacts.links_after_all in Hl as (_ & _ & ?).
    - subst n1. by rewrite (proj2 (enforce_autarky_all n)), dom_empty_L. }
  unfold enforce_autarky at 1.
  rewrite (AutarkyFacts.mremove_lines_none _ _ Hlines).
  by rewrite (AutarkyFacts.mremove_links_none _ _ Hlinks).
Qed.

(** X15. Autarky keeps the time-indexed frames in step with the tables:
    when every column of the frames of the lines and links names a line or
    link before, it does so after, the columns of the removed ones being
    dropped with them. *)
Theorem X15_autarky_frames (n : Network) (only_crossborder : bool) :
  frames_consistent n → frames_consistent (enforce_autarky n only_crossborder).
Proof.
  intros Hn attr col df.
  unfold enforce_autarky, mremove_links, mremove_lines.
  cbn [pnl lines links with_time with_lines with_links].
  set (lines_rm := if only_crossborder
                   then dom (filter (fun kv : string * Line.t =>
                                       line_crossborder n kv.2 = true) (lines n))
                   else dom (lines n)).
  set (links_rm := if only_crossborder
                   then dom (filter (fun kv : string * Link.t =>
                                       link_crossborder n kv.2 = true) (links n))
                   else dom (links n)).
  rewrite !AutarkyFacts.drop_columns_lookup, !mremove_lookup. split.
  - destruct (pnl n !! ("lines", attr)) as [df0|] eqn:E; cbn; [|done].
    intros [= <-] [s Hs]. rewrite mremove_lookup in Hs.
    destruct (decide (col ∈ lines_rm)); [done|].
    apply (proj1 (Hn attr col df0) E). eauto.
  - destruct (pnl n !! ("links", attr)) as [df0|] eqn:E; cbn; [|done].
    intros [= <-] [s Hs]. rewrite mremove_lookup in Hs.
    destruct (decide (col ∈ links_rm)); [done|].
    apply (proj2 (Hn attr col df0) E). eauto.
Qed.

Lemma X15_autarky_frames_witness :
  frames_consistent (enforce_autarky SampleMore.net_frames true).
Proof.
  apply (X15_autarky_frames SampleMore.net_frames true).
  intros attr col df.
  change (pnl SampleMore.net_frames)
    with ({[ ("lines", "s_max_pu") :=
               ({[ "L2" := [(0%Z, Some 1); (Resample.hour, Some 0.5)] ]} : frame) ]}
          : gmap (string * string) frame).
  split.
  - intros [_ <-]%lookup_singleton_Some [s [<- _]%lookup_singleton_Some].
    vm_compute. eauto.
  - intros [[=] _]%lookup_singleton_Some.
Defined.

(** X16. Autarky across borders also removes a line or link with an end
    that is no bus of the network: the country of that end is [nan], which
    differs from every country. *)
Theorem X16_autarky_unknown_bus (n : Network) :
  (∀ (k : string) (l : Line.t),
      lines n !! k = Some l →
      buses n !! Line.bus0 l = None ∨ buses n !! Line.bus1 l = None →
      lines (enforce_autarky n true) !! k = None)
  ∧ (∀ (k : string) (l : Link.t),
        links n !! k = Some l →
        buses n !! Link.bus0 l = None ∨ buses n !! Link.bus1 l = None →
        links (enforce_autarky n true) !! k = None).
Proof.
  split.
  - intros k l Hl Hb. rewrite enforce_autarky_lines, Hl. cbn.
    unfold line_crossborder, country_of.
    destruct Hb as [-> | ->]; [done|].
    by destruct (buses n !! Line.bus0 l).
  - intros k l Hl Hb. rewrite enforce_autarky_links, Hl. cbn.
    unfold link_crossborder, country_of.
    destruct Hb as [-> | ->]; [done|].
    by destruct (buses n !! Link.bus0 l).
Qed.

Lemma X16_autarky_unknown_bus_witness :
  lines (enforce_autarky SampleMore.net_loose true) !! "L3" = None.
Proof.
  refine (proj1 (X16_autarky_unknown_bus SampleMore.net_loose)
                "L3" (Sample.line "DE0" "XX9" 5) _ _).
  - reflexivity.
  - right. reflexivity.
Defined.

(** ** More on the transmission limit *)

Section LimitEdges.

Variable line_cost : Q → string → Line.t → Q.
Variable dc_link_cost : Q → string → Link.t → Q.

Lemma float_cases (text : string) :
  (∃ F : Q, PyFloat.float text = Ok F) ∨ PyFloat.float text = Raise (ValueError text).
Proof. unfold PyFloat.float. destruct (PyFloat.parse text); eauto. Qed.

(** X17. The limit goes through exactly when the factor is "opt", or reads
    as a number and the network has no constraint of the name of the limit
    yet.  A factor that is no number raises [ValueError]; a constraint of
    that name raises the assertion of pypsa. *)
Theorem X17_limit_errors (n : Network) (ll_type factor : string) (Nyears : Q) :
  ((∃ n' : Network,
       set_transmission_limit line_cost dc_link_cost n ll_type factor Nyears = Ok n')
   ↔ factor = "opt"
     ∨ ((∃ F : Q, PyFloat.float factor = Ok F)
        ∧ global_constraints n !! ("l" ++ ll_type ++ "_limit") = None))
  ∧ (factor ≠ "opt" → PyFloat.float factor = Raise (ValueError factor) →
     set_transmission_limit line_cost dc_link_cost n ll_type factor Nyears
     = Raise (ValueError factor))
  ∧ (factor ≠ "opt" → (∃ F : Q, PyFloat.float factor = Ok F) →
     is_Some (global_constraints n !! ("l" ++ ll_type ++ "_limit")) →
     set_transmission_limit line_cost dc_link_cost n ll_type factor Nyears
     = Raise (AssertionError ("l" ++ ll_type ++ "_limit"))).
Proof.
  assert (Hval : factor ≠ "opt" → PyFloat.float factor = Raise (ValueError factor) →
                 set_transmission_limit line_cost dc_link_cost n ll_type factor Nyears
                 = Raise (ValueError factor)).
  { intros Hne Hf. unfold set_transmission_limit.
    by rewrite (bool_decide_eq_false_2 _ Hne), Hf. }
  assert (Hdup : factor ≠ "opt" → (∃ F : Q, PyFloat.float factor = Ok F) →
                 is_Some (global_constraints n !! ("l" ++ ll_type ++ "_limit")) →
                 set_transmission_limit line_cost dc_link_cost n ll_type factor Nyears
                 = Raise (AssertionError ("l" ++ ll_type ++ "_limit"))).
  { intros Hne [F HF] [c Hc].
    rewrite (set_transmission_limit_number _ _ _ _ _ _ F Hne HF).
    unfold add_global_constraint.
    destruct (negb (Qle_bool F 1.0));
      change (global_constraints (make_extendable n _)) with (global_constraints n);
      change (global_constraints (update_transmission_costs _ _ _ n))
        with (global_constraints n);
      by rewrite Hc. }
  split_and!; [|exact Hval|exact Hdup].
  destruct (decide (factor = "opt")) as [->|Hne].
  - rewrite set_transmission_limit_opt. split; eauto.
  - split.
    + intros [n' Hn']. right.
      destruct (float_cases factor) as [[F HF]|Hf];
        [|rewrite (Hval Hne Hf) in Hn'; done].
      split; [eauto|].
      destruct (global_constraints n !! ("l" ++ ll_type ++ "_limit")) as [c|] eqn:E;
        [|done].
      rewrite Hdup in Hn'; eauto. done.
    + intros [?|[[F HF] Hfresh]]; [done|].
      rewrite (set_transmission_limit_number _ _ _ _ _ _ F Hne HF).
      unfold add_global_constraint.
      destruct (negb (Qle_bool F 1.0));
        change (global_constraints (make_extendable n _)) with (global_constraints n);
        change (global_constraints (update_transmission_costs _ _ _ n))
          with (global_constraints n);
        rewrite Hfresh; eauto.
Qed.

(** X18. With a factor that reads as a number of at most 1 nothing becomes
    extendable: a line comes out with the capital cost of the cost table
    and is otherwise as it was, a DC link likewise, and another link is
    unchanged. *)
Theorem X18_limit_without_expansion (n n' : Network) (ll_type factor : string)
        (Nyears F : Q) :
  factor ≠ "opt" → PyFloat.float factor = Ok F → F <= 1 →
  set_transmission_limit line_cost dc_link_cost n ll_type factor Nyears = Ok n' →
  (∀ k : string,
      lines n' !! k
      = (fun l => Line.set_capital_cost (line_cost Nyears k l) l) <$> lines n !! k)
  ∧ (∀ k : string,
        links n' !! k
        = (fun l => if bool_decide (Link.carrier l = "DC")
                    then Link.set_capital_cost (dc_link_cost Nyears k l) l
                    else l) <$> links n !! k).
Proof.
  intros Hne HF Hle.
  rewrite (set_transmission_limit_number _ _ _ _ _ _ F Hne HF).
  assert (E : Qle_bool F 1.0 = true).
  { apply Qle_bool_iff. eapply Qle_trans; [exact Hle|]. discriminate. }
  rewrite E. cbn [negb]. unfold add_global_constraint.
  destruct (global_constraints _ !! _); [done|]. intros [= <-]. split.
  - intros k. apply update_lines.
  - intros k. apply update_links.
Qed.


End LimitEdges.

Lemma X18_limit_without_expansion_witness :
  ∃ n' : Network,
    set_transmission_limit Sample.line_cost Sample.dc_link_cost
                           Sample.net "v" "1.0" 2 = Ok n'
    ∧ lines n' !! "L1"
      = Some (Line.set_capital_cost (Sample.line_cost 2 "L1" (Sample.line "DE0" "DE1" 10))
                                    (Sample.line "DE0" "DE1" 10)).
Proof.
  eexists. split; [reflexivity|].
  refine (eq_trans
            (proj1 (X18_limit_without_expansion
                      Sample.line_cost Sample.dc_link_cost Sample.net _ "v" "1.0" 2 _
                      _ eq_refl _ eq_refl) "L1") _).
  - discriminate.
  - discriminate.
  - reflexivity.
Defined.


(** ** A line type that the network does not have *)

Lemma fsum_nan (m : gmap string fnum) :
  (∃ k : string, m !! k = Some NaN) → fsum m = NaN.
Proof.
  unfold fsum.
  apply (map_fold_weak_ind
           (fun (r : fnum) (m : gmap string fnum) =>
              (∃ k : string, m !! k = Some NaN) → r = NaN)).
  - intros [k Hk]. by rewrite lookup_empty in Hk.
  - intros i x m0 r Hi IH [k Hk].
    destruct (decide (i = k)) as [->|Hne].
    + rewrite lookup_insert_eq in Hk. injection Hk as ->. by destruct r.
    + rewrite lookup_insert_ne in Hk by done.
      rewrite IH by eauto. by destruct x.
Qed.



(** ** The wildcard of the limit *)

(** X21. The script returns no network for a wildcard [ll] that is empty
    or has the type character only: the first has no type character to
    take, the second leaves an empty factor that is no number. *)
Theorem X21_short_limit_wildcard (line_cost : Q → string → Line.t → Q)
        (dc_link_cost : Q → string → Link.t → Q) cfg (opts : list string)
        (c : ascii) (n n' : Network) :
  main_tokens line_cost dc_link_cost cfg opts "" n ≠ Ok n'
  ∧ main_tokens line_cost dc_link_cost cfg opts (String c "") n ≠ Ok n'.
Proof.
  unfold main_tokens.
  destruct (resample_loop opts (set_line_s_max_pu n)) as [n1|]; [|done].
  cbn [mbind result_bind].
  destruct (for_each (option_step cfg (Nyears_of n)) opts n1) as [n2|]; [|done].
  cbn [mbind result_bind].
  destruct (for_each carrier_step opts n2) as [n3|]; [|done].
  cbn [mbind result_bind]. split; [done|].
  destruct (X17_limit_errors line_cost dc_link_cost n3 (String c "") "" (Nyears_of n))
    as (_ & Hval & _).
  rewrite Hval; [done|done|reflexivity].
Qed.

(** ** A carrier name as a token *)

Lemma split_no_sep (sep : ascii) (s : string) :
  no_char sep s → PyStr.split sep s = [s].
Proof.
  induction s as [|c s IH]; [done|]. intros [Hc Hs]. cbn.
  rewrite (proj2 (Ascii.eqb_neq c sep) Hc), (IH Hs). done.
Qed.

Lemma prefix_refl (s : string) : String.prefix s s = true.
Proof.
  induction s as [|c s IH]; [done|]. cbn.
  destruct (ascii_dec c c); [exact IH|done].
Qed.

(** X22. A token that is the name of a carrier of the network, without a
    "-" and without a "+", stops the loop over the cost scaling with
    [IndexError]: it passes the test of the prefix and has no factor. *)
Theorem X22_carrier_name_token (n : Network) (o : string) :
  is_Some (carriers n !! o) → no_char "-" o → no_char "+" o →
  carrier_step o n = Raise IndexError
  ∧ ∀ rest : list string, for_each carrier_step (o :: rest) n = Raise IndexError.
Proof.
  intros [row Hrow] Hminus Hplus.
  assert (E : carrier_step o n = Raise IndexError).
  { unfold carrier_step. rewrite (split_no_sep "+" o Hplus).
    cbn [PyStr.item nth_error mbind result_bind].
    assert (Hp : PyStr.startswith_any o (suptechs n) = true).
    { unfold PyStr.startswith_any. apply existsb_exists. exists o. split.
      - apply list_elem_of_In. unfold suptechs.
        apply list_elem_of_fmap. exists o. split.
        + unfold PyStr.first_segment. by rewrite (split_no_sep "-" o Hminus).
        + apply list_elem_of_fmap. exists (o, row). split; [done|].
          by apply elem_of_map_to_list.
      - apply prefix_refl. }
    by rewrite Hp. }
  split; [exact E|]. intros rest. cbn [for_each]. by rewrite E.
Qed.

Lemma X22_carrier_name_token_witness :
  carrier_step "biogas" Sample.net = Raise IndexError.
Proof.
  apply (X22_carrier_name_token Sample.net "biogas").
  - vm_compute. eauto.
  - vm_compute. repeat split; discriminate.
  - vm_compute. repeat split; discriminate.
Defined.

(** ** The margin that the script exports *)

Section ExportedMargin.

Variable line_cost : Q → string → Line.t → Q.
Variable dc_link_cost : Q → string → Link.t → Q.
Variable cfg : Config.

Lemma add_co2limit_lines (n n' : Network) (Ny : Q) (v : option Q) :
  add_co2limit cfg n Ny v = Ok n' → lines n' = lines n.
Proof.
  unfold add_co2limit, add_global_constraint.
  destruct (match v with
            | Some f =>
                getitem (electricity cfg) "electricity" "co2base"
                ≫= (fun co2base : Q => Ok (f * co2base))
            | None => getitem (electricity cfg) "electricity" "co2limit"
            end) as [a|]; [|done].
  cbn [mbind result_bind].
  destruct (global_constraints n !! "CO2Limit"); [done|]. by intros [= <-].
Qed.

Lemma add_emission_prices_lines (n n' : Network) (p : option (gmap string Q))
      (x : bool) :
  add_emission_prices cfg n p x = Ok n' → lines n' = lines n.
Proof.
  unfold add_emission_prices.
  destruct (match p with
            | Some p0 => Ok p0
            | None => getitem (costs cfg) "costs" "emission_prices"
            end) as [prices|]; [|done].
  cbn [mbind result_bind].
  destruct (if x then match prices !! "co2" with
                      | Some _ => Ok (delete "co2" prices)
                      | None => Raise (KeyError "co2")
                      end
            else Ok prices) as [prices'|]; [|done].
  cbn [mbind result_bind]. by intros [= <-].
Qed.

(** The lines after one pass of the option loop. *)
Lemma option_step_lines (Ny : Q) (o : string) (n n' : Network) (v : option Q) :
  token_value o v → option_step cfg Ny o n = Ok n' →
  lines n' = if PyStr.contains "SC" o
             then Line.set_s_max_pu (default 1 v) <$> lines n else lines n.
Proof.
  intros Hv. unfold option_step. rewrite (co2l_step_value cfg Ny o n v Hv).
  destruct (if PyStr.contains "Co2L" o then add_co2limit cfg n Ny v else Ok n)
    as [n1|] eqn:E1; [|done].
  cbn [mbind result_bind]. rewrite (sc_step_value o n1 v Hv).
  cbn [mbind result_bind]. rewrite (ep_step_value cfg o _ v Hv).
  intros E3.
  assert (H1 : lines n1 = lines n).
  { destruct (PyStr.contains "Co2L" o).
    - by eapply add_co2limit_lines.
    - by injection E1 as <-. }
  rewrite <- H1.
  destruct (PyStr.contains "Ep" o).
  - apply add_emission_prices_lines in E3. rewrite E3.
    by destruct (PyStr.contains "SC" o).
  - injection E3 as <-. by destruct (PyStr.contains "SC" o).
Qed.

Lemma all_margin_set (v : Q) (m : gmap string Line.t) (n : Network) :
  lines n = Line.set_s_max_pu v <$> m → all_margin v n.
Proof.
  intros E k l. rewrite E, lookup_fmap.
  destruct (m !! k); cbn; [|done]. by intros [= <-].
Qed.

Lemma all_margin_fmap (v : Q) (f : Line.t → Line.t) (n n' : Network) :
  (∀ l, Line.s_max_pu (f l) = Line.s_max_pu l) →
  (∀ k, lines n' !! k = f <$> lines n !! k) →
  all_margin v n → all_margin v n'.
Proof.
  intros Hf E Hn k l'. rewrite E.
  destruct (lines n !! k) as [l|] eqn:El; cbn; [|done].
  intros [= <-]. rewrite Hf. by eapply Hn.
Qed.

Lemma all_margin_same_lines (v : Q) (n n' : Network) :
  lines n' = lines n → all_margin v n → all_margin v n'.
Proof. intros E Hn k l. rewrite E. apply Hn. Qed.

Lemma option_loop_margin (Ny v : Q) (post : list string) (n n' : Network) :
  Forall (fun p => PyStr.contains "SC" p = false) post →
  for_each (option_step cfg Ny) post n = Ok n' →
  all_margin v n → all_margin v n'.
Proof.
  intros Hpost. revert n. induction Hpost as [|p post Hp _ IH]; intros n.
  - cbn. by intros [= <-].
  - cbn [for_each].
    destruct (option_step cfg Ny p n) as [n1|] eqn:E; [|done].
    cbn [mbind result_bind]. intros H Hn. apply (IH n1 H).
    destruct (FloatFacts.token_value_total p) as [w Hw].
    apply (option_step_lines Ny p n n1 w Hw) in E. rewrite Hp in E.
    by eapply all_margin_same_lines.
Qed.

Lemma carrier_step_margin (v : Q) (o : string) (n n' : Network) :
  carrier_step o n = Ok n' → all_margin v n → all_margin v n'.
Proof.
  unfold carrier_step.
  destruct (PyStr.item (PyStr.split "+" o) 0) as [oo0|]; [|done].
  cbn [mbind result_bind].
  destruct (PyStr.startswith_any oo0 (suptechs n)); [|by intros [= <-]].
  destruct (PyStr.item (PyStr.split "+" o) 1) as [oo1|]; [|done].
  cbn [mbind result_bind].
  destruct (PyFloat.float oo1) as [f|]; [|done].
  cbn [mbind result_bind].
  destruct (bool_decide (oo0 = "AC")); intros [= <-].
  - apply (all_margin_fmap v
             (fun l => Line.set_capital_cost (Line.capital_cost l * f) l));
      [done|]. intros k. unfold scale_lines. cbn. by rewrite lookup_fmap.
  - by apply all_margin_same_lines.
Qed.

Lemma carrier_loop_margin (v : Q) (opts : list string) (n n' : Network) :
  for_each carrier_step opts n = Ok n' → all_margin v n → all_margin v n'.
Proof.
  revert n. induction opts as [|o opts IH]; intros n; cbn [for_each].
  - by intros [= <-].
  - destruct (carrier_step o n) as [n1|] eqn:E; [|done].
    cbn [mbind result_bind]. intros H Hn. apply (IH n1 H).
    by eapply carrier_step_margin.
Qed.

Lemma transmission_limit_margin (v : Q) (ll_type factor : string) (Ny : Q)
      (n n' : Network) :
  set_transmission_limit line_cost dc_link_cost n ll_type factor Ny = Ok n' →
  all_margin v n → all_margin v n'.
Proof.
  intros H Hn.
  assert (Hup : all_margin v (update_transmission_costs line_cost dc_link_cost Ny n)).
  { intros k l'. rewrite update_lines.
    destruct (lines n !! k) as [l|] eqn:El; cbn; [|done].
    intros [= <-]. exact (Hn k l El). }
  assert (Hext : all_margin v (make_extendable n
                   (update_transmission_costs line_cost dc_link_cost Ny n))).
  { intros k l'. unfold make_extendable. cbn [lines with_lines with_links].
    rewrite lookup_fmap.
    destruct (lines (update_transmission_costs line_cost dc_link_cost Ny n) !! k)
      as [l|] eqn:El; cbn; [|done].
    intros [= <-]. exact (Hup k l El). }
  destruct (decide (factor = "opt")) as [->|Hne].
  - rewrite set_transmission_limit_opt in H. by injection H as <-.
  - destruct (float_cases factor) as [[F HF]|Hf].
    + rewrite (set_transmission_limit_number _ _ _ _ _ _ F Hne HF) in H.
      unfold add_global_constraint in H.
      destruct (global_constraints _ !! _); [done|]. injection H as <-.
      destruct (negb (Qle_bool F 1.0)); by eapply all_margin_same_lines.
    + unfold set_transmission_limit in H.
      by rewrite (bool_decide_eq_false_2 _ Hne), Hf in H.
Qed.

Lemma nom_max_margin (v : Q) (n n' : Network) :
  set_line_nom_max cfg n = Ok n' → all_margin v n → all_margin v n'.
Proof.
  unfold set_line_nom_max, get_default.
  destruct (cfg_lines cfg) as [ls|]; [|done].
  destruct (cfg_links cfg) as [lk|]; [|done].
  cbn [mbind result_bind]. intros [= <-].
  apply (all_margin_fmap v
           (fun l => Line.set_s_nom_max
                       (F.clip_upper (default PInf (ls !! "s_nom_max,"))
                                     (Line.s_nom_max l)) l)); [done|].
  intros k. cbn. by rewrite lookup_fmap.
Qed.

Lemma autarky_margin (v : Q) (opts : list string) (n : Network) :
  all_margin v n → all_margin v (autarky_step opts n).
Proof.
  intros Hn k l. unfold autarky_step.
  destruct (bool_decide ("ATK" ∈ opts)).
  - by rewrite (proj1 (enforce_autarky_all n)), lookup_empty.
  - destruct (bool_decide ("ATKc" ∈ opts)); [|apply Hn].
    intros Hl. apply AutarkyFacts.lines_after_all in Hl as (_ & Hl & _).
    by eapply Hn.
Qed.

(** X23. When the options have a token that contains "SC", every line of
    the network that the script returns has the margin of the last such
    token: its number, or 1 when it has none.  The margin by the number of
    buses is overwritten, and no later step touches the margin. *)
Theorem X23_exported_margin (pre post : list string) (o ll : string)
        (v : option Q) (n n' : Network) :
  PyStr.contains "SC" o = true → token_value o v →
  Forall (fun p => PyStr.contains "SC" p = false) post →
  main_tokens line_cost dc_link_cost cfg (pre ++ o :: post)%list ll n = Ok n' →
  all_margin (default 1 v) n'.
Proof.
  intros Ho Hv Hpost. unfold main_tokens.
  destruct (resample_loop _ _) as [n1|]; [|done].
  cbn [mbind result_bind]. rewrite for_each_app.
  destruct (for_each (option_step cfg (Nyears_of n)) pre n1) as [n2|]; [|done].
  cbn [mbind result_bind for_each].
  destruct (option_step cfg (Nyears_of n) o n2) as [n3|] eqn:E3; [|done].
  cbn [mbind result_bind].
  destruct (for_each (option_step cfg (Nyears_of n)) post n3) as [n4|] eqn:E4;
    [|done].
  cbn [mbind result_bind].
  destruct (for_each carrier_step (pre ++ o :: post)%list n4) as [n5|] eqn:E5;
    [|done].
  cbn [mbind result_bind]. destruct ll as [|c factor]; [done|].
  destruct (set_transmission_limit _ _ n5 _ _ _) as [n6|] eqn:E6; [|done].
  cbn [mbind result_bind].
  destruct (set_line_nom_max cfg n6) as [n7|] eqn:E7; [|done].
  cbn [mbind result_bind]. intros [= <-].
  apply autarky_margin, (nom_max_margin _ _ _ E7),
    (transmission_limit_margin _ _ _ _ _ _ E6), (carrier_loop_margin _ _ _ _ E5),
    (option_loop_margin _ _ _ _ _ Hpost E4).
  apply (option_step_lines _ o n2 n3 v Hv) in E3. rewrite Ho in E3.
  by eapply all_margin_set.
Qed.

End ExportedMargin.

Lemma X23_exported_margin_witness :
  ∃ n' : Network,
    main_tokens Sample.line_cost Sample.dc_link_cost Sample.cfg
                ["SC0.9"; "2H"; "SC"; "Ep"] "v1.5" Sample.net = Ok n'
    ∧ all_margin 1 n'.
Proof.
  eexists. split; [vm_compute; reflexivity|].
  apply (X23_exported_margin Sample.line_cost Sample.dc_link_cost Sample.cfg
                             ["SC0.9"; "2H"] ["Ep"] "SC" "v1.5" None Sample.net).
  - reflexivity.
  - left. split; [|reflexivity]. apply Suffix.findall_none. reflexivity.
  - repeat constructor.
  - vm_compute. reflexivity.
Defined.

(** ** A generator without efficiency *)

(** X24. A generator with the efficiency zero, a finite marginal cost and a
    carrier that emits CO2 gets, for a positive price of CO2, the marginal
    cost infinity: the division raises nothing. *)
Theorem X24_zero_efficiency cfg (n : Network) (p c e : Q) (k : string)
        (g : Generator.t) (row : gmap string Q) :
  generators n !! k = Some g →
  carriers n !! Generator.carrier g = Some row →
  row !! "co2_emissions" = Some e →
  Generator.efficiency g == 0 → 0 < p * e →
  Generator.marginal_cost g = Num c →
  ∃ n' : Network,
    add_emission_prices cfg n (Some {[ "co2" := p ]}) false = Ok n' ∧
    Generator.marginal_cost <$> generators n' !! k = Some PInf.
Proof.
  intros Hg Hrow He Heff Hpos Hc. eexists. split; [reflexivity|].
  cbn [generators with_generators with_storage_units].
  rewrite lookup_fmap, Hg. cbn [fmap option_fmap option_map]. f_equal.
  cbn [Generator.marginal_cost Generator.set_marginal_cost].
  unfold emission_price_of, F.div. rewrite Hrow, Hc.
  rewrite (proj2 (Qeq_bool_iff _ _) Heff).
  assert (Hs : F.sgn (carrier_price {[ "co2" := p ]} row) = Gt).
  { unfold F.sgn. apply Qgt_alt.
    rewrite PriceFacts.carrier_price_co2, He. exact Hpos. }
  by rewrite Hs.
Qed.

Lemma X24_zero_efficiency_witness :
  ∃ n' : Network,
    add_emission_prices
      Sample.cfg
      (with_generators (<["g3" := Generator.mk "gas" 0 (Num 3) 100]>
                          (generators Sample.net)) Sample.net)
      (Some {[ "co2" := 10 ]}) false = Ok n' ∧
    Generator.marginal_cost <$> generators n' !! "g3" = Some PInf.
Proof.
  apply (X24_zero_efficiency
           Sample.cfg
           (with_generators (<["g3" := Generator.mk "gas" 0 (Num 3) 100]>
                               (generators Sample.net)) Sample.net)
           10 3 0.2 "g3" (Generator.mk "gas" 0 (Num 3) 100)
           {[ "co2_emissions" := 0.2 ]}); reflexivity.
Defined.
